(** * arxiv-daily: the fetch / merge / render pipeline of [daily_arxiv.py]

    A shallow embedding of the Python module [src/daily_arxiv.py] and the
    properties of its specification.

    Conventions of the embedding:
    - a Python [str] is a Rocq [string] (a byte string; text is read as its
      UTF-8 encoding, whose bytewise order is the code-point order Python
      compares by);
    - a Python [dict] is an insertion-ordered association list with unique
      keys ([dict_wf]); [d[k] = v] is [dict_set], [{**a, **b}] is
      [dict_unpack2];
    - the file system, the log and standard output are threaded through a
      state-and-exception monad [py]: a raised exception keeps the state
      reached so far (writes already made are not rolled back);
    - the file system is the tree below the working directory: directories
      and regular files under normalized relative paths; what a path outside
      that tree does is read from the [World];
    - the network (arXiv search, code-link lookup), the YAML parser, the
      clock and the platform (Unicode character database, C library) are
      read from a [World]. *)

From Stdlib Require Import String Ascii List ZArith Bool Sorted Permutation.
From Stdlib Require Import OrderedTypeEx.
From stdpp Require Import base strings list gmap pretty.

Open Scope string_scope.
Open Scope list_scope.

(** ** Python dictionaries *)

Abbreviation dict V := (list (string * V)).

Section Dict.
Context {V : Type}.

Definition dict_keys (d : dict V) : list string := map fst d.
Definition dict_values (d : dict V) : list V := map snd d.

(** The representation invariant of a Python dict: keys are unique. *)
Definition dict_wf (d : dict V) : Prop := NoDup (dict_keys d).

(** [d.get(k)] / [d[k]] ([None] is the [KeyError] case of [d[k]]). *)
Fixpoint dict_get (k : string) (d : dict V) : option V :=
  match d with
  | [] => None
  | (k', v) :: d' => if String.eqb k k' then Some v else dict_get k d'
  end.

(** [d[k] = v]: an existing key keeps its position, a new key is appended. *)
Fixpoint dict_set (k : string) (v : V) (d : dict V) : dict V :=
  match d with
  | [] => [(k, v)]
  | (k', v') :: d' =>
      if String.eqb k k' then (k, v) :: d' else (k', v') :: dict_set k v d'
  end.

(** [d.update(src)]: the items of [src] are stored into [d] in order. *)
Definition dict_update (d src : dict V) : dict V :=
  fold_left (fun acc kv => dict_set (fst kv) (snd kv) acc) src d.

(** The dict display [{**a, **b}]: a fresh dict receives the items of [a],
    then those of [b]; later items override earlier ones. *)
Definition dict_unpack2 (a b : dict V) : dict V :=
  dict_update (dict_update [] a) b.

End Dict.

(** The keys of [d] after storing at [k]: unchanged when [k] is already a
    key, extended at the end otherwise. *)
Definition add_key (ks : list string) (k : string) : list string :=
  if bool_decide (k ∈ ks) then ks else ks ++ [k].

Definition add_keys (ks new : list string) : list string :=
  fold_left add_key new ks.

(** ** Python strings *)

Definition LF : ascii := "010"%char.

(** [s.split(sep)] for a one-character separator [sep]. *)
Fixpoint str_split (sep : ascii) (s : string) : list string :=
  match s with
  | EmptyString => [EmptyString]
  | String c s' =>
      if Ascii.eqb c sep then EmptyString :: str_split sep s'
      else match str_split sep s' with
           | w :: ws => String c w :: ws
           | [] => [String c EmptyString]
           end
  end.

(** [s.replace(old, new)] for a one-character [old]. *)
Fixpoint str_replace (old : ascii) (new : string) (s : string) : string :=
  match s with
  | EmptyString => EmptyString
  | String c s' =>
      if Ascii.eqb c old then new +:+ str_replace old new s'
      else String c (str_replace old new s')
  end.

(** [sep.join(l)] *)
Definition str_join (sep : string) (l : list string) : string :=
  String.concat sep l.

Definition str_startswith (c : ascii) (s : string) : bool :=
  match s with
  | String c' _ => Ascii.eqb c' c
  | EmptyString => false
  end.

Fixpoint str_endswith (c : ascii) (s : string) : bool :=
  match s with
  | EmptyString => false
  | String c' EmptyString => Ascii.eqb c' c
  | String _ s' => str_endswith c s'
  end.

(** [c in s] for a one-character [c]. *)
Fixpoint str_contains (c : ascii) (s : string) : bool :=
  match s with
  | EmptyString => false
  | String c' s' => Ascii.eqb c' c || str_contains c s'
  end.

Definition is_lower (c : ascii) : bool :=
  (97 <=? nat_of_ascii c)%nat && (nat_of_ascii c <=? 122)%nat.
Definition is_upper (c : ascii) : bool :=
  (65 <=? nat_of_ascii c)%nat && (nat_of_ascii c <=? 90)%nat.
Definition to_upper (c : ascii) : ascii :=
  if is_lower c then ascii_of_nat (nat_of_ascii c - 32) else c.
Definition to_lower (c : ascii) : ascii :=
  if is_upper c then ascii_of_nat (nat_of_ascii c + 32) else c.

(** [s.title()] on ASCII text: the first letter of every run of letters is
    upper-cased and the others lower-cased. *)
Fixpoint str_title_from (previous_is_cased : bool) (s : string) : string :=
  match s with
  | EmptyString => EmptyString
  | String c s' =>
      if is_lower c then
        String (if previous_is_cased then c else to_upper c) (str_title_from true s')
      else if is_upper c then
        String (if previous_is_cased then to_lower c else c) (str_title_from true s')
      else String c (str_title_from false s')
  end.

(** [s.isascii()] *)
Definition str_isascii (s : string) : bool :=
  forallb (fun c => (nat_of_ascii c <? 128)%nat) (list_ascii_of_string s).

(** [s.title()].  Which characters outside ASCII are cased, and their
    title-case and lower-case forms, come from the Unicode character
    database: [unicode_title] stands for [str.title] on such text. *)
Definition str_title (unicode_title : string -> string) (s : string) : string :=
  if str_isascii s then str_title_from false s else unicode_title s.

(** ** [os.path] (POSIX flavour) *)

(** [os.path.join(a, b)] *)
Definition os_path_join (a b : string) : string :=
  if str_startswith "/" b then b
  else if String.eqb a "" || str_endswith "/" a then a +:+ b
  else a +:+ "/" +:+ b.

(** [os.path.basename(p)]: what follows the last slash. *)
Fixpoint os_path_basename (p : string) : string :=
  match p with
  | EmptyString => EmptyString
  | String c p' =>
      if existsb (Ascii.eqb "/") (list_ascii_of_string p') then os_path_basename p'
      else if Ascii.eqb c "/" then p'
      else p
  end.

(** ** Dates *)

Record date := { year : nat; month : nat; day : nat }.

Fixpoint zeros (n : nat) : string :=
  match n with
  | O => EmptyString
  | S n' => String "0" (zeros n')
  end.

(** [%0<width>d] *)
Definition zero_pad (width : nat) (n : nat) : string :=
  let s := pretty n in zeros (width - String.length s) +:+ s.

(** [str(d)] of a [datetime.date]. *)
Definition date_isoformat (d : date) : string :=
  zero_pad 4 (year d) +:+ "-" +:+ zero_pad 2 (month d) +:+ "-" +:+ zero_pad 2 (day d).

(** [d.strftime('%Y-%m-%d')].  How [%Y] prints a year below 1000 is up to
    the C library (padded to four digits or not); [small_year] is that
    form. *)
Definition date_strftime (small_year : nat -> string) (d : date) : string :=
  (if (year d <? 1000)%nat then small_year (year d) else pretty (year d))
  +:+ "-" +:+ zero_pad 2 (month d) +:+ "-" +:+ zero_pad 2 (day d).

(** ** Data model *)

(** A Paper Record, the value stored under a paper identifier. *)
Record Paper := {
  title : string;
  authors : string;
  abstract : string;
  pdf : string;
  code : string;
  updated : string
}.

(** One hit of the arXiv search, as far as [fetch_papers] reads it. *)
Record Result := {
  get_short_id : string;
  result_updated : date;
  result_summary : string;
  result_title : string;
  result_authors : list string
}.

(** A category entry of the configuration is a dict of strings; the global
    configuration holds the categories in declared order and the shared
    [max_results] ([None] when the key is missing). *)
Record Config := {
  categories : dict (dict string);
  max_results : option Z
}.

(** Exceptions; every one is a subclass of [Exception].  An exception of
    the file system carries the path the program passed to the call. *)
Inductive exn :=
| NameError (name : string)
| TypeError (msg : string)
| KeyError (key : string)
| IndexError (msg : string)
| AttributeError (msg : string)
| FileNotFoundError (path : string)
| FileExistsError (path : string)
| IsADirectoryError (path : string)
| NotADirectoryError (path : string)
| PermissionError (path : string)
| OSError (msg : string)
| ValueError (msg : string)
| JSONDecodeError (msg : string)
| RequestException (msg : string)
| ArxivError (msg : string)
| YAMLError (msg : string).

(** The decoded body of a code-link response, as far as [get_code_link]
    inspects it.  The ["url"] member is typed as the service documents it:
    a string, or [None] when it is null or missing. *)
Inductive official_value :=
| OfficialObject (url : option string)
| OfficialOther.

Inductive payload :=
| PayloadObject (official : option official_value)
| PayloadOther.

(** A file holds a serialized Category Store or other text. *)
Inductive file_content :=
| JsonStore (data : dict Paper)
| Text (s : string).

(** How a call into the file system fails, and the exception the failure
    is reported as. *)
Inductive os_failure :=
| NoSuchFile
| FileExists
| IsADirectory
| NotADirectory
| PermissionDenied
| OtherFailure (msg : string)
| EmbeddedNull.

Definition os_exception (failure : os_failure) (path : string) : exn :=
  match failure with
  | NoSuchFile => FileNotFoundError path
  | FileExists => FileExistsError path
  | IsADirectory => IsADirectoryError path
  | NotADirectory => NotADirectoryError path
  | PermissionDenied => PermissionError path
  | OtherFailure msg => OSError msg
  | EmbeddedNull => ValueError "embedded null byte"
  end.

(** The platform the interpreter runs on: the Unicode character database,
    the C library, and the file system outside the tree the state tracks. *)
Record Platform := {
  (** [s.title()] for text outside ASCII *)
  unicode_title : string -> string;
  (** [%Y] of [strftime] for a year below 1000 *)
  strftime_small_year : nat -> string;
  (** [os.makedirs(path, exist_ok=True)]: the failure, if any *)
  untracked_makedirs : string -> option os_failure;
  (** [os.path.exists(path)] *)
  untracked_exists : string -> bool;
  (** [open(path, 'r')] and reading to the end *)
  untracked_read : string -> os_failure + file_content;
  (** [open(path, 'w')], writing and closing: the failure, if any *)
  untracked_write : string -> option os_failure
}.

(** What the program reads from outside. *)
Record World := {
  (** [client.results(search)]: the hits yielded, then the exception that
      ends the iteration early, if any *)
  arxiv_results : string -> Z -> list Result * option exn;
  (** [requests.get(url).json()] *)
  requests_get_json : string -> exn + payload;
  (** [open(config_file)] followed by [yaml.safe_load] *)
  yaml_safe_load : string -> exn + Config;
  (** [datetime.date.today()] *)
  today : date;
  platform : Platform
}.

Inductive level := INFO | ERROR.

Inductive log_message :=
| LoadedConfiguration (config : Config)
| FailedToGetCodeLink (paper_id : string) (e : exn)
| GeneratedMarkdown (category_name output_path : string)
| ProcessingCategory (cat_name : string)
| SuccessfullyUpdated (cat_name : string)
| FailedToProcess (cat_name : string) (e : exn).

Record state := {
  dirs : gset string;
  files : gmap string file_content;
  log : list (level * log_message);
  stdout : list string
}.

(** ** The state-and-exception monad *)

Inductive outcome (A : Type) :=
| Return (a : A)
| Raise (e : exn).
Arguments Return {A} a.
Arguments Raise {A} e.

Definition py (A : Type) : Type := state -> state * outcome A.

Definition ret {A} (a : A) : py A := fun st => (st, Return a).

Definition raise {A} (e : exn) : py A := fun st => (st, Raise e).

Definition bind {A B} (c : py A) (k : A -> py B) : py B :=
  fun st =>
    match c st with
    | (st', Return a) => k a st'
    | (st', Raise e) => (st', Raise e)
    end.

(** [try: c  except Exception as e: handler e] *)
Definition try_except {A} (c : py A) (handler : exn -> py A) : py A :=
  fun st =>
    match c st with
    | (st', Return a) => (st', Return a)
    | (st', Raise e) => handler e st'
    end.

Declare Scope py_scope.
Delimit Scope py_scope with py.
Notation "x <- c ;; k" := (bind c (fun x => k))
  (at level 100, c at next level, right associativity) : py_scope.
Notation "c ;; k" := (bind c (fun _ => k))
  (at level 100, right associativity) : py_scope.
Open Scope py_scope.

Definition of_result {A} (r : exn + A) : py A :=
  match r with
  | inl e => raise e
  | inr a => ret a
  end.

(** [d[k]] *)
Definition getitem {V} (d : dict V) (k : string) : py V :=
  match dict_get k d with
  | Some v => ret v
  | None => raise (KeyError k)
  end.

Definition logging_info (m : log_message) : py unit :=
  fun st => ({| dirs := dirs st; files := files st;
                log := log st ++ [(INFO, m)]; stdout := stdout st |}, Return tt).

Definition logging_error (m : log_message) : py unit :=
  fun st => ({| dirs := dirs st; files := files st;
                log := log st ++ [(ERROR, m)]; stdout := stdout st |}, Return tt).

Definition print (line : string) : py unit :=
  fun st => ({| dirs := dirs st; files := files st;
                log := log st; stdout := stdout st ++ [line] |}, Return tt).

(** ** The file system *)

(** The state tracks the tree below the working directory.  [dirs] and
    [files] are keyed by normalized relative paths: the names from the
    working directory down, joined by single slashes.  The working
    directory itself is a directory, is writable and has room.

    The tree holds directories and regular files, no links.

    A path is resolved the way the kernel does: empty components (doubled
    and trailing slashes) and ["."] components name no step, every
    directory walked through has to exist, and a path that ends in a slash
    or in ["."] can only name a directory. *)

Definition path_components (path : string) : list string :=
  str_split "/" path.

Definition is_name (c : string) : bool :=
  negb (String.eqb c "") && negb (String.eqb c ".").

Definition path_names (path : string) : list string :=
  List.filter is_name (path_components path).

Definition NUL : ascii := "000"%char.

(** The paths the state answers for: relative, without [".."], without a
    NUL byte and within the length limits of the platform.  Any other path
    is answered by the [Platform]. *)
Definition path_tracked (path : string) : bool :=
  negb (str_startswith "/" path)
  && negb (existsb (String.eqb "..") (path_components path))
  && negb (str_contains NUL path)
  && forallb (fun c => (String.length c <=? 255)%nat) (path_components path)
  && (String.length path <? 4096)%nat.

Definition ends_with_slash (path : string) : bool := str_endswith "/" path.

(** The last component that is not empty is ["."]. *)
Definition ends_with_dot (path : string) : bool :=
  match last (List.filter (fun c => negb (String.eqb c "")) (path_components path)) with
  | Some c => String.eqb c "."
  | None => false
  end.

(** The normalized paths of the directories a walk along [names] goes
    through, starting in [base]; the last one is the path of the walk's
    end. *)
Fixpoint keys_from (base : string) (names : list string) : list string :=
  match names with
  | [] => []
  | n :: rest =>
      let key := if String.eqb base "" then n else base +:+ "/" +:+ n in
      key :: keys_from key rest
  end.

Definition path_keys (path : string) : list string :=
  keys_from "" (path_names path).

Inductive entry :=
| Missing
| Directory
| RegularFile (content : file_content).

Definition entry_at (st : state) (key : string) : entry :=
  match files st !! key with
  | Some content => RegularFile content
  | None => if bool_decide (key ∈ dirs st) then Directory else Missing
  end.

(** Walking through [keys]: each has to be a directory. *)
Fixpoint walk (st : state) (path : string) (keys : list string) : option exn :=
  match keys with
  | [] => None
  | key :: rest =>
      match entry_at st key with
      | Directory => walk st path rest
      | RegularFile _ => Some (NotADirectoryError path)
      | Missing => Some (FileNotFoundError path)
      end
  end.

(** What a tracked path leads to. *)
Inductive resolved :=
| Unreachable (e : exn)
| AtDirectory
| AtFile (key : string) (content : file_content)
| AtNothing (key : string).

Definition resolve (st : state) (path : string) : resolved :=
  let keys := path_keys path in
  if ends_with_dot path then
    match walk st path keys with
    | Some e => Unreachable e
    | None => AtDirectory
    end
  else
    match walk st path (removelast keys) with
    | Some e => Unreachable e
    | None =>
        match last keys with
        | None => AtDirectory
        | Some key =>
            match entry_at st key with
            | Directory => AtDirectory
            | RegularFile content => AtFile key content
            | Missing => AtNothing key
            end
        end
    end.

(** The regular file that stops [os.makedirs] on its way down [keys]:
    [FileExistsError] when it is what the path itself names (and the path
    does not end in ["."]), [NotADirectoryError] when the path goes on
    below it. *)
Fixpoint makedirs_error (fs : gmap string file_content) (path : string)
    (dot : bool) (keys : list string) : option exn :=
  match keys with
  | [] => None
  | key :: rest =>
      match fs !! key with
      | Some _ =>
          Some (match rest with
                | [] => if dot then NotADirectoryError path else FileExistsError path
                | _ :: _ => NotADirectoryError path
                end)
      | None => makedirs_error fs path dot rest
      end
  end.

(** [os.makedirs(path, exist_ok=True)]: every directory on the way is
    created, the path's own last. *)
Definition os_makedirs (w : World) (path : string) : py unit :=
  fun st =>
    if String.eqb path "" then (st, Raise (FileNotFoundError path))
    else match files st !! path with
         | Some _ => (st, Raise (FileExistsError path))
         | None =>
             if path_tracked path then
               match makedirs_error (files st) path (ends_with_dot path) (path_keys path) with
               | Some e => (st, Raise e)
               | None =>
                   ({| dirs := list_to_set (path_keys path) ∪ dirs st;
                       files := files st;
                       log := log st; stdout := stdout st |}, Return tt)
               end
             else match untracked_makedirs (platform w) path with
                  | Some failure => (st, Raise (os_exception failure path))
                  | None => (st, Return tt)
                  end
         end.

(** [os.path.exists(path)] *)
Definition os_path_exists (w : World) (path : string) : py bool :=
  fun st =>
    (st, Return
       (if String.eqb path "" then false
        else if path_tracked path then
          match resolve st path with
          | Unreachable _ => false
          | AtDirectory => true
          | AtFile _ _ => negb (ends_with_slash path)
          | AtNothing _ => false
          end
        else untracked_exists (platform w) path)).

(** [with open(path, 'r') as f: f.read()] *)
Definition read_file (w : World) (path : string) : py file_content :=
  fun st =>
    if String.eqb path "" then (st, Raise (FileNotFoundError path))
    else if path_tracked path then
      match resolve st path with
      | Unreachable e => (st, Raise e)
      | AtDirectory => (st, Raise (IsADirectoryError path))
      | AtFile _ content =>
          if ends_with_slash path then (st, Raise (NotADirectoryError path))
          else (st, Return content)
      | AtNothing _ => (st, Raise (FileNotFoundError path))
      end
    else match untracked_read (platform w) path with
         | inl failure => (st, Raise (os_exception failure path))
         | inr content => (st, Return content)
         end.

(** [with open(path, 'r') as f: json.load(f)] *)
Definition json_load (w : World) (path : string) : py (dict Paper) :=
  content <- read_file w path ;;
  match content with
  | JsonStore data => ret data
  | Text _ => raise (JSONDecodeError path)
  end.

(** Where [open(path, 'w')] puts the file: the key of a tracked path whose
    directory exists and which names no directory; the exception
    otherwise. *)
Definition open_for_writing (st : state) (path : string) : exn + string :=
  if String.eqb path "" then inl (FileNotFoundError path)
  else match resolve st path with
       | Unreachable e => inl e
       | AtDirectory => inl (IsADirectoryError path)
       | AtFile key _ | AtNothing key =>
           if ends_with_slash path then inl (IsADirectoryError path)
           else inr key
       end.

(** [with open(path, 'w') as f: ...]: the file is replaced in full. *)
Definition write_file (w : World) (path : string) (content : file_content) : py unit :=
  fun st =>
    if path_tracked path then
      match open_for_writing st path with
      | inl e => (st, Raise e)
      | inr key =>
          ({| dirs := dirs st; files := <[key := content]> (files st);
              log := log st; stdout := stdout st |}, Return tt)
      end
    else match untracked_write (platform w) path with
         | Some failure => (st, Raise (os_exception failure path))
         | None => (st, Return tt)
         end.

(** [with open(path, 'w') as f: json.dump(data, f, indent=2)] *)
Definition json_dump (w : World) (data : dict Paper) (path : string) : py unit :=
  write_file w path (JsonStore data).

(** ** Sorting *)

Section Sorting.
Context {A : Type} (key : A -> string).

(** [x] goes in front of the first element whose key is not above its own,
    so elements with equal keys keep their original order. *)
Fixpoint insert_reverse (x : A) (l : list A) : list A :=
  match l with
  | [] => [x]
  | y :: l' =>
      if String.ltb (key x) (key y) then y :: insert_reverse x l' else x :: l
  end.

(** [sorted(l, key=key, reverse=True)]: the stable sort by descending key. *)
Definition sorted_reverse (l : list A) : list A :=
  foldr insert_reverse [] l.

End Sorting.

(** [p] may stand before [q] in a list sorted by descending key. *)
Definition descending {A} (key : A -> string) (p q : A) : Prop :=
  String.leb (key q) (key p) = true.

(** ** The module [daily_arxiv] *)

Definition ARXIV_URL : string := "http://arxiv.org/".

(** The names bound in the module's namespace once its body has run: the
    imports, the constants, the functions and the names of the script part. *)
Definition module_globals : list string :=
  [ "__name__"; "__doc__"; "__package__"; "__loader__"; "__spec__";
    "__file__"; "__cached__"; "__builtins__";
    "os"; "re"; "json"; "arxiv"; "yaml"; "logging"; "argparse"; "datetime";
    "requests"; "Dict"; "List";
    "BASE_DIR"; "ARXIV_URL"; "GITHUB_API_URL";
    "load_config"; "get_authors"; "sort_papers"; "get_code_link";
    "fetch_papers"; "update_category_data"; "generate_markdown"; "main";
    "parser"; "args"; "config" ].

(** The names of the [builtins] module. *)
Definition builtins : list string :=
  [ "abs"; "aiter"; "all"; "anext"; "any"; "ascii"; "bin"; "bool";
    "breakpoint"; "bytearray"; "bytes"; "callable"; "chr"; "classmethod";
    "compile"; "complex"; "copyright"; "credits"; "delattr"; "dict"; "dir";
    "divmod"; "enumerate"; "eval"; "exec"; "exit"; "filter"; "float";
    "format"; "frozenset"; "getattr"; "globals"; "hasattr"; "hash"; "help";
    "hex"; "id"; "input"; "int"; "isinstance"; "issubclass"; "iter"; "len";
    "license"; "list"; "locals"; "map"; "max"; "memoryview"; "min"; "next";
    "object"; "oct"; "open"; "ord"; "pow"; "print"; "property"; "quit";
    "range"; "repr"; "reversed"; "round"; "set"; "setattr"; "slice";
    "sorted"; "staticmethod"; "str"; "sum"; "super"; "tuple"; "type";
    "vars"; "zip"; "__import__"; "__build_class__"; "__debug__";
    "None"; "True"; "False"; "Ellipsis"; "NotImplemented";
    "BaseException"; "BaseExceptionGroup"; "Exception"; "ExceptionGroup";
    "GeneratorExit"; "KeyboardInterrupt"; "SystemExit";
    "ArithmeticError"; "AssertionError"; "AttributeError"; "BlockingIOError";
    "BrokenPipeError"; "BufferError"; "ChildProcessError";
    "ConnectionAbortedError"; "ConnectionError"; "ConnectionRefusedError";
    "ConnectionResetError"; "EOFError"; "EnvironmentError";
    "FileExistsError"; "FileNotFoundError"; "FloatingPointError"; "IOError";
    "ImportError"; "IndentationError"; "IndexError"; "InterruptedError";
    "IsADirectoryError"; "KeyError"; "LookupError"; "MemoryError";
    "ModuleNotFoundError"; "NameError"; "NotADirectoryError";
    "NotImplementedError"; "OSError"; "OverflowError"; "PermissionError";
    "ProcessLookupError"; "RecursionError"; "ReferenceError"; "RuntimeError";
    "StopAsyncIteration"; "StopIteration"; "SyntaxError"; "SystemError";
    "TabError"; "TimeoutError"; "TypeError"; "UnboundLocalError";
    "UnicodeDecodeError"; "UnicodeEncodeError"; "UnicodeError";
    "UnicodeTranslateError"; "ValueError"; "ZeroDivisionError";
    "BytesWarning"; "DeprecationWarning"; "EncodingWarning"; "FutureWarning";
    "ImportWarning"; "PendingDeprecationWarning"; "ResourceWarning";
    "RuntimeWarning"; "SyntaxWarning"; "UnicodeWarning"; "UserWarning";
    "Warning" ].

(** Evaluating a global name: it is looked up in the module's namespace,
    then among the builtins; a name found in neither raises [NameError]. *)
Definition load_global (globals : list string) (name : string) : py unit :=
  if bool_decide (name ∈ globals ++ builtins) then ret tt
  else raise (NameError name).

(** [x or default] on an optional string: [None] and [""] are falsy. *)
Definition str_or (x : option string) (default : string) : string :=
  match x with
  | Some s => if String.eqb s "" then default else s
  | None => default
  end.

(** [paper_id.split('v')[0]] *)
Definition clean_id (paper_id : string) : string :=
  hd EmptyString (str_split "v" paper_id).

(** [get_authors(authors, first_author)], on the authors' names *)
Definition get_authors (authors : list string) (first_author : bool) : py string :=
  if first_author then
    match authors with
    | a :: _ => ret a
    | [] => raise (IndexError "list index out of range")
    end
  else ret (str_join ", " authors).

(** [sort_papers(papers)] *)
Definition sort_papers {V} (papers : dict V) : dict V :=
  dict_update [] (sorted_reverse fst papers).

(** [f"https://arxiv.paperswithcode.com/api/v0/papers/{paper_id}"] *)
Definition code_url (paper_id : string) : string :=
  "https://arxiv.paperswithcode.com/api/v0/papers/" +:+ paper_id.

(** [response.get('official', {})] *)
Definition get_official (response : payload) : py official_value :=
  match response with
  | PayloadObject (Some official) => ret official
  | PayloadObject None => ret (OfficialObject None)
  | PayloadOther => raise (AttributeError "get")
  end.

(** [official.get('url')] *)
Definition get_url (official : official_value) : py (option string) :=
  match official with
  | OfficialObject url => ret url
  | OfficialOther => raise (AttributeError "get")
  end.

(** One table row of the Markdown document. *)
Definition markdown_row (paper : Paper) : string :=
  let code_link :=
    if negb (String.eqb (code paper) "null")
    then "[Code](" +:+ code paper +:+ ")" else "null" in
  "| " +:+ updated paper +:+ " | " +:+ title paper +:+ " | " +:+
  authors paper +:+ " | " +:+ "[PDF](" +:+ pdf paper +:+ ") | " +:+
  code_link +:+ " |".

(** [{**papers, **existing_data}], where [papers] may be [None]. *)
Definition merge_data (papers : option (dict Paper)) (existing_data : dict Paper)
  : py (dict Paper) :=
  match papers with
  | Some papers => ret (dict_unpack2 papers existing_data)
  | None => raise (TypeError "'NoneType' object is not a mapping")
  end.

Section Program.
Variable globals : list string.
Variable w : World.

(** [get_code_link(paper_id)] *)
Definition get_code_link (paper_id : string) : py (option string) :=
  try_except
    (let code_url := code_url paper_id in
     response <- of_result (requests_get_json w code_url) ;;
     official <- get_official response ;;
     get_url official)
    (fun e => logging_error (FailedToGetCodeLink paper_id e) ;; ret None).

(** The body of the loop of [fetch_papers]: the key and the record stored
    for one hit. *)
Definition paper_entry (result : Result) : py (string * Paper) :=
  let paper_id := get_short_id result in
  let update_time := result_updated result in
  let clean_id := clean_id paper_id in
  let pdf_url := ARXIV_URL +:+ "abs/" +:+ clean_id in
  let abstract := str_replace LF " " (result_summary result) in
  link <- get_code_link clean_id ;;
  let code_link := str_or link "null" in
  authors <- get_authors (result_authors result) false ;;
  ret (paper_id,
       {| title := result_title result;
          authors := authors;
          abstract := abstract;
          pdf := pdf_url;
          code := code_link;
          updated := date_isoformat update_time |}).

Fixpoint fetch_loop (results : list Result) (papers : dict Paper) : py (dict Paper) :=
  match results with
  | [] => ret papers
  | result :: results' =>
      entry <- paper_entry result ;;
      fetch_loop results' (dict_set (fst entry) (snd entry) papers)
  end.

(** [fetch_papers(query, max_results)].  The function ends without a
    [return] statement, so a call that completes evaluates to [None]. *)
Definition fetch_papers (query : string) (max_results : Z)
  : py (option (dict Paper)) :=
  load_global globals "Client" ;;
  let search := arxiv_results w query max_results in
  papers <- fetch_loop (fst search) [] ;;
  match snd search with Some e => raise e | None => ret tt end ;;
  print ("paper.len:  " +:+ pretty (length papers)) ;;
  ret None.

(** The lines of the Markdown document. *)
Definition markdown_content (data : dict Paper) (category_name : string) : list string :=
  let sorted_papers := sorted_reverse updated (dict_values data) in
  [ "# " +:+ str_title (unicode_title (platform w)) (str_replace "-" " " category_name)
         +:+ " Papers";
    "*Last Updated: " +:+ date_strftime (strftime_small_year (platform w)) (today w)
         +:+ "*" +:+ String LF EmptyString;
    "| Date | Title | Authors | PDF | Code |";
    "|------|-------|---------|-----|------|" ]
  ++ map markdown_row sorted_papers.

(** The text written: ["\n".join(content)]. *)
Definition markdown_document (data : dict Paper) (category_name : string) : string :=
  str_join (String LF EmptyString) (markdown_content data category_name).

(** [generate_markdown(data, output_path, category_name)] *)
Definition generate_markdown (data : dict Paper) (output_path category_name : string)
  : py unit :=
  write_file w output_path (Text (markdown_document data category_name)) ;;
  logging_info (GeneratedMarkdown category_name output_path).

(** [update_category_data(category_config, global_config)] *)
Definition update_category_data (category_config : dict string) (global_config : Config)
  : py unit :=
  output_dir <- getitem category_config "output_dir" ;;
  os_makedirs w output_dir ;;
  query <- getitem category_config "query" ;;
  max_results <- match max_results global_config with
                 | Some n => ret n
                 | None => raise (KeyError "max_results")
                 end ;;
  papers <- fetch_papers query max_results ;;
  json_path <- getitem category_config "json_path" ;;
  present <- os_path_exists w json_path ;;
  existing_data <- (if present : bool then json_load w json_path else ret []) ;;
  merged_data <- merge_data papers existing_data ;;
  json_dump w merged_data json_path ;;
  md_path <- getitem category_config "md_path" ;;
  generate_markdown merged_data md_path (os_path_basename output_dir).

(** The loop of [load_config] over the category entries. *)
Fixpoint derive_paths (cats : dict (dict string)) : py (dict (dict string)) :=
  match cats with
  | [] => ret []
  | (name, cat) :: cats' =>
      output_dir <- getitem cat "output_dir" ;;
      let cat := dict_set "json_path" (os_path_join output_dir "papers.json") cat in
      output_dir <- getitem cat "output_dir" ;;
      let cat := dict_set "md_path" (os_path_join output_dir "README.md") cat in
      cats'' <- derive_paths cats' ;;
      ret ((name, cat) :: cats'')
  end.

(** [load_config(config_file)] *)
Definition load_config (config_file : string) : py Config :=
  config <- of_result (yaml_safe_load w config_file) ;;
  cats <- derive_paths (categories config) ;;
  let config := {| categories := cats; max_results := max_results config |} in
  logging_info (LoadedConfiguration config) ;;
  ret config.

(** The loop of [main] over [config['categories'].items()]. *)
Fixpoint main_loop (items : dict (dict string)) (config : Config) : py unit :=
  match items with
  | [] => ret tt
  | (cat_name, cat_config) :: items' =>
      logging_info (ProcessingCategory cat_name) ;;
      try_except
        (update_category_data cat_config config ;;
         logging_info (SuccessfullyUpdated cat_name))
        (fun e => logging_error (FailedToProcess cat_name e)) ;;
      main_loop items' config
  end.

(** [main(config)] *)
Definition main (config : Config) : py unit :=
  main_loop (categories config) config.

(** The script: [config = load_config(args.config); main(config)]. *)
Definition script (config_file : string) : py unit :=
  config <- load_config config_file ;;
  main config.

End Program.

(** ** Example data *)

Definition empty_state : state :=
  {| dirs := ∅; files := ∅; log := []; stdout := [] |}.

(** The hit of the specification's end-to-end scenario. *)
Definition example_result : Result :=
  {| get_short_id := "2401.00001v1";
     result_updated := {| year := 2024; month := 1; day := 2 |};
     result_summary := "Line1" +:+ String LF "Line2";
     result_title := "Example Paper";
     result_authors := ["Jane Doe"] |}.

(** An old-style identifier: archive [solv-int], paper 9901001, version 1. *)
Definition old_style_result : Result :=
  {| get_short_id := "solv-int/9901001v1";
     result_updated := {| year := 1999; month := 1; day := 5 |};
     result_summary := "Solitons";
     result_title := "An Integrable System";
     result_authors := ["A. Author"; "B. Author"] |}.

Definition example_categories : dict (dict string) :=
  [ ("cs.CL", [("query", "cat:cs.CL"); ("output_dir", "papers/cs.CL")]);
    ("cs.CV", [("query", "cat:cs.CV"); ("output_dir", "papers/cs.CV")]) ].

(** A platform on which nothing outside the working directory can be
    reached, and whose C library does not pad years.  [unicode_title] is
    not consulted for the ASCII names of the examples. *)
Definition example_platform : Platform :=
  {| unicode_title := fun s => s;
     strftime_small_year := fun y => pretty y;
     untracked_makedirs := fun _ => Some PermissionDenied;
     untracked_exists := fun _ => false;
     untracked_read := fun _ => inl PermissionDenied;
     untracked_write := fun _ => Some PermissionDenied |}.

(** One hit per search, no official code link, a two-category configuration. *)
Definition example_world : World :=
  {| arxiv_results := fun _ _ => ([example_result], None);
     requests_get_json := fun _ => inr (PayloadObject None);
     yaml_safe_load := fun _ =>
       inr {| categories := example_categories; max_results := Some 1%Z |};
     today := {| year := 2024; month := 1; day := 3 |};
     platform := example_platform |}.

(** The same world with the code-link service unreachable. *)
Definition offline_world : World :=
  {| arxiv_results := arxiv_results example_world;
     requests_get_json := fun _ => inl (RequestException "connection refused");
     yaml_safe_load := yaml_safe_load example_world;
     today := today example_world;
     platform := platform example_world |}.

(** The configuration [load_config] returns in [example_world]. *)
Definition example_config : Config :=
  {| categories :=
       [ ("cs.CL", [("query", "cat:cs.CL"); ("output_dir", "papers/cs.CL");
                    ("json_path", "papers/cs.CL/papers.json");
                    ("md_path", "papers/cs.CL/README.md")]);
         ("cs.CV", [("query", "cat:cs.CV"); ("output_dir", "papers/cs.CV");
                    ("json_path", "papers/cs.CV/papers.json");
                    ("md_path", "papers/cs.CV/README.md")]) ];
     max_results := Some 1%Z |}.

Definition example_category : dict string :=
  [ ("query", "cat:cs.CL"); ("output_dir", "papers/cs.CL");
    ("json_path", "papers/cs.CL/papers.json");
    ("md_path", "papers/cs.CL/README.md") ].

(** The record the scenario stores, and the same paper as fetched later,
    once an official code link exists. *)
Definition stored_record : Paper :=
  {| title := "Example Paper"; authors := "Jane Doe";
     abstract := "Line1 Line2"; pdf := "http://arxiv.org/abs/2401.00001";
     code := "null"; updated := "2024-01-02" |}.

Definition fetched_record : Paper :=
  {| title := "Example Paper"; authors := "Jane Doe";
     abstract := "Line1 Line2"; pdf := "http://arxiv.org/abs/2401.00001";
     code := "https://github.com/example/paper"; updated := "2024-01-02" |}.

Definition other_record : Paper :=
  {| title := "Another Paper"; authors := "John Roe, Jane Doe";
     abstract := "Text"; pdf := "http://arxiv.org/abs/2312.09999";
     code := "null"; updated := "2023-12-20" |}.




Definition example_store : dict Paper :=
  [ ("2312.09999v2", other_record); ("2401.00001v1", stored_record) ].

Definition example_fetched : dict Paper :=
  [ ("2401.00001v1", fetched_record) ].

(** A namespace in which [Client] is bound (to [arxiv.Client]). *)
Definition globals_with_Client : list string := "Client" :: module_globals.

(** A world whose code-link service answers with a body that is not an
    object (a JSON list, say). *)
Definition malformed_world : World :=
  {| arxiv_results := arxiv_results example_world;
     requests_get_json := fun _ => inr PayloadOther;
     yaml_safe_load := yaml_safe_load example_world;
     today := today example_world;
     platform := platform example_world |}.

(** A world whose code-link service knows an official repository. *)
Definition linked_world : World :=
  {| arxiv_results := fun _ _ => ([example_result; old_style_result], None);
     requests_get_json := fun _ =>
       inr (PayloadObject
              (Some (OfficialObject (Some "https://github.com/example/paper"))));
     yaml_safe_load := yaml_safe_load example_world;
     today := today example_world;
     platform := platform example_world |}.

(** What holds of an entry of the mapping the fetcher builds: the PDF link
    is made from the canonical form of the entry's own key. *)
Definition pdf_from_key (k : string) (r : Paper) : Prop :=
  pdf r = ARXIV_URL +:+ "abs/" +:+ clean_id k.

(** A world whose search yields one hit and then fails. *)
Definition interrupted_world : World :=
  {| arxiv_results := fun _ _ => ([example_result], Some (ArxivError "HTTP 503"));
     requests_get_json := requests_get_json example_world;
     yaml_safe_load := yaml_safe_load example_world;
     today := today example_world;
     platform := platform example_world |}.

(** A world whose configuration file is not valid YAML. *)
Definition broken_config_world : World :=
  {| arxiv_results := arxiv_results example_world;
     requests_get_json := requests_get_json example_world;
     yaml_safe_load := fun _ => inl (YAMLError "mapping values are not allowed here");
     today := today example_world;
     platform := platform example_world |}.

(** A world whose configuration has a category without ["output_dir"]. *)
Definition incomplete_config_world : World :=
  {| arxiv_results := arxiv_results example_world;
     requests_get_json := requests_get_json example_world;
     yaml_safe_load := fun _ =>
       inr {| categories :=
                [ ("cs.CL", [("query", "cat:cs.CL"); ("output_dir", "papers/cs.CL")]);
                  ("cs.CV", [("query", "cat:cs.CV")]) ];
              max_results := Some 1%Z |};
     today := today example_world;
     platform := platform example_world |}.


(** How a loaded category entry relates to the parsed one: the same name,
    and the same value under every key but the two derived ones. *)
Definition same_settings (parsed loaded : string * dict string) : Prop :=
  fst loaded = fst parsed /\
  forall k, k <> "json_path" -> k <> "md_path" ->
            dict_get k (snd loaded) = dict_get k (snd parsed).

(** A date of the calendar, as far as its printed form goes: the ranges of
    [datetime.date]. *)
Definition date_valid (d : date) : bool :=
  (1 <=? year d)%nat && (year d <=? 99 * 101)%nat &&
  (1 <=? month d)%nat && (month d <=? 12)%nat &&
  (1 <=? day d)%nat && (day d <=? 31)%nat.

(** Chronological comparison. *)
Definition date_compare (d1 d2 : date) : comparison :=
  match Nat.compare (year d1) (year d2) with
  | Eq => match Nat.compare (month d1) (month d2) with
          | Eq => Nat.compare (day d1) (day d2)
          | c => c
          end
  | c => c
  end.

(** [n] and its successor, printed on [width] digits, have that width and
    stand in this order. *)
Definition pads_in_order (width : nat) (n : nat) : bool :=
  match String.compare (zero_pad width n) (zero_pad width (S n)) with
  | Lt => true
  | _ => false
  end
  && Nat.eqb (String.length (zero_pad width n)) width
  && Nat.eqb (String.length (zero_pad width (S n))) width.

(** ** Frame conditions *)

(** [c] relates every state it starts in to the state it ends in, whether
    it returns or raises. *)
Definition preserves {A} (R : state -> state -> Prop) (c : py A) : Prop :=
  forall st, R st (fst (c st)).

(** No file is created, replaced or removed. *)
Definition same_files (st st' : state) : Prop := files st' = files st.

(** Log records are only appended. *)
Definition log_grows (st st' : state) : Prop := exists l, log st' = log st ++ l.

(** [c] never returns: in every state it raises, having touched no file. *)
Definition raises_keeping_files {A} (c : py A) : Prop :=
  forall st, exists st' e, c st = (st', Raise e) /\ files st' = files st.

(** Nothing is printed. *)
Definition same_stdout (st st' : state) : Prop := stdout st' = stdout st.

(** Directories are only created. *)
Definition dirs_grow (st st' : state) : Prop := dirs st ⊆ dirs st'.

(** Only log records satisfying [P] are appended. *)
Definition log_adds (P : level * log_message -> Prop) (st st' : state) : Prop :=
  exists l, log st' = log st ++ l /\ Forall P l.

(** The start message of a category. *)
Definition is_start (r : level * log_message) : bool :=
  match r with
  | (INFO, ProcessingCategory _) => true
  | _ => false
  end.

(** The categories whose start message a log holds, in order. *)
Definition processed (l : list (level * log_message)) : list string :=
  omap (fun r => match r with
                 | (INFO, ProcessingCategory cat_name) => Some cat_name
                 | _ => None
                 end) l.

(** * Properties *)

(** ** Dictionaries *)

(** *** Lookup after store *)

Section DictFacts.
Context {V : Type}.
Implicit Types (d src : dict V) (k : string) (v : V).

Lemma dict_get_set k k' v d :
  dict_get k (dict_set k' v d) =
  if String.eqb k k' then Some v else dict_get k d.
Proof.
  induction d as [|[k0 v0] d IH]; simpl.
  - destruct (String.eqb_spec k k'); reflexivity.
  - destruct (String.eqb_spec k' k0) as [->|Hne]; simpl.
    + destruct (String.eqb_spec k k0); reflexivity.
    + rewrite IH.
      destruct (String.eqb_spec k k0) as [->|Hne2]; [|reflexivity].
      destruct (String.eqb_spec k0 k'); congruence.
Qed.

Lemma dict_get_app k d1 d2 :
  dict_get k (d1 ++ d2) =
  match dict_get k d1 with Some v => Some v | None => dict_get k d2 end.
Proof.
  induction d1 as [|[k0 v0] d1 IH]; simpl; [reflexivity|].
  destruct (String.eqb k k0); auto.
Qed.

Lemma dict_get_Some_keys k v d : dict_get k d = Some v -> k ∈ dict_keys d.
Proof.
  induction d as [|[k0 v0] d IH]; simpl; [discriminate|].
  destruct (String.eqb_spec k k0) as [->|Hne]; intros H.
  - apply list_elem_of_here.
  - apply list_elem_of_further, IH, H.
Qed.

Lemma dict_get_None_keys k d : dict_get k d = None <-> k ∉ dict_keys d.
Proof.
  induction d as [|[k0 v0] d IH]; simpl.
  - split; [intros _ H; inversion H | reflexivity].
  - destruct (String.eqb_spec k k0) as [->|Hne].
    + split; [discriminate|]. intros H. exfalso. apply H, list_elem_of_here.
    + rewrite IH. rewrite not_elem_of_cons. tauto.
Qed.

Lemma dict_keys_is_Some k d : k ∈ dict_keys d <-> is_Some (dict_get k d).
Proof.
  split.
  - intros Hin. destruct (dict_get k d) eqn:E; [eauto|].
    apply dict_get_None_keys in E. contradiction.
  - intros [v Hv]. eapply dict_get_Some_keys, Hv.
Qed.

(** On a well-formed dict the first binding of a key is its only one, so
    looking a key up from either end gives the same answer. *)
Lemma dict_get_rev k d : dict_wf d -> dict_get k (rev d) = dict_get k d.
Proof.
  unfold dict_wf, dict_keys.
  induction d as [|[k0 v0] d IH]; simpl; [reflexivity|].
  intros Hnd. apply NoDup_cons in Hnd as [Hnotin Hnd].
  rewrite dict_get_app, IH by assumption. simpl.
  destruct (String.eqb_spec k k0) as [->|Hne].
  - apply dict_get_None_keys in Hnotin. rewrite Hnotin. reflexivity.
  - destruct (dict_get k d); reflexivity.
Qed.

Lemma dict_get_update k d src :
  dict_get k (dict_update d src) =
  match dict_get k (rev src) with
  | Some v => Some v
  | None => dict_get k d
  end.
Proof.
  unfold dict_update. revert d.
  induction src as [|[k0 v0] src IH]; intros d; simpl; [reflexivity|].
  rewrite IH, dict_get_app, dict_get_set. simpl.
  destruct (dict_get k (rev src)); [reflexivity|].
  destruct (String.eqb k k0); reflexivity.
Qed.

Lemma dict_get_unpack2_rev k (a b : dict V) :
  dict_get k (dict_unpack2 a b) =
  match dict_get k (rev b) with
  | Some v => Some v
  | None => dict_get k (rev a)
  end.
Proof.
  unfold dict_unpack2. rewrite !dict_get_update. simpl.
  destruct (dict_get k (rev b)); [reflexivity|].
  destruct (dict_get k (rev a)); reflexivity.
Qed.

(** The lookup law of [{**a, **b}]: the right operand wins. *)
Lemma dict_get_unpack2 k (a b : dict V) :
  dict_wf a -> dict_wf b ->
  dict_get k (dict_unpack2 a b) =
  match dict_get k b with
  | Some v => Some v
  | None => dict_get k a
  end.
Proof.
  intros Ha Hb. rewrite dict_get_unpack2_rev.
  rewrite (dict_get_rev k a Ha), (dict_get_rev k b Hb). reflexivity.
Qed.

End DictFacts.

(** *** Key order after store *)

Section DictKeys.
Context {V : Type}.
Implicit Types (d src : dict V) (k : string) (v : V).

Lemma dict_keys_set k v d : dict_keys (dict_set k v d) = add_key (dict_keys d) k.
Proof.
  unfold add_key, dict_keys.
  induction d as [|[k0 v0] d IH]; simpl; [reflexivity|].
  destruct (String.eqb_spec k k0) as [->|Hne]; simpl.
  - rewrite bool_decide_true by apply list_elem_of_here. reflexivity.
  - rewrite IH. destruct (bool_decide_reflect (k ∈ map fst d)) as [Hin|Hnin].
    + rewrite bool_decide_true by (apply list_elem_of_further, Hin). reflexivity.
    + rewrite bool_decide_false; [reflexivity|].
      rewrite not_elem_of_cons. split; assumption.
Qed.

Lemma dict_keys_update d src :
  dict_keys (dict_update d src) = add_keys (dict_keys d) (dict_keys src).
Proof.
  unfold dict_update, add_keys. revert d.
  induction src as [|[k0 v0] src IH]; intros d; simpl; [reflexivity|].
  rewrite IH, dict_keys_set. reflexivity.
Qed.

End DictKeys.

Lemma add_key_NoDup ks k : NoDup ks -> NoDup (add_key ks k).
Proof.
  intros Hnd. unfold add_key.
  destruct (bool_decide_reflect (k ∈ ks)) as [Hin|Hnin]; [assumption|].
  apply NoDup_app. split; [assumption|]. split.
  - intros x Hx Hx'. apply list_elem_of_singleton in Hx'. subst. contradiction.
  - apply NoDup_singleton.
Qed.

Lemma add_keys_NoDup ks new : NoDup ks -> NoDup (add_keys ks new).
Proof.
  unfold add_keys. revert ks.
  induction new as [|k new IH]; intros ks Hnd; simpl; [assumption|].
  apply IH, add_key_NoDup, Hnd.
Qed.

Lemma add_keys_app ks n1 n2 : add_keys ks (n1 ++ n2) = add_keys (add_keys ks n1) n2.
Proof. unfold add_keys. apply fold_left_app. Qed.

(** Storing never removes or reorders the keys already present. *)
Lemma add_keys_prefix ks new : exists r, add_keys ks new = ks ++ r.
Proof.
  unfold add_keys. revert ks.
  induction new as [|k new IH]; intros ks; simpl.
  - exists []. rewrite app_nil_r. reflexivity.
  - destruct (IH (add_key ks k)) as [r Hr]. rewrite Hr. unfold add_key.
    destruct (bool_decide (k ∈ ks)); [eauto|].
    exists (k :: r). rewrite <- app_assoc. reflexivity.
Qed.

Lemma add_keys_present ks new : (forall k, k ∈ new -> k ∈ ks) -> add_keys ks new = ks.
Proof.
  unfold add_keys. revert ks.
  induction new as [|k new IH]; intros ks Hsub; simpl; [reflexivity|].
  assert (Hk : add_key ks k = ks).
  { unfold add_key. rewrite bool_decide_true; [reflexivity|].
    apply Hsub, list_elem_of_here. }
  rewrite Hk. apply IH. intros k' Hk'. apply Hsub, list_elem_of_further, Hk'.
Qed.

Lemma add_keys_fresh ks r : NoDup (ks ++ r) -> add_keys ks r = ks ++ r.
Proof.
  unfold add_keys. revert ks.
  induction r as [|k r IH]; intros ks Hnd; simpl.
  - rewrite app_nil_r. reflexivity.
  - assert (Hnd' : NoDup ((ks ++ [k]) ++ r)) by (rewrite <- app_assoc; exact Hnd).
    assert (Hk : add_key ks k = ks ++ [k]).
    { unfold add_key. rewrite bool_decide_false; [reflexivity|].
      apply NoDup_app in Hnd as (_ & Hdisj & _).
      intros Hin. apply (Hdisj k Hin), list_elem_of_here. }
    rewrite Hk, (IH _ Hnd'), <- app_assoc. reflexivity.
Qed.

(** Storing the keys of an already merged dict a second time changes nothing. *)
Lemma add_keys_idem ks new :
  NoDup ks -> add_keys ks (add_keys ks new) = add_keys ks new.
Proof.
  intros Hnd. destruct (add_keys_prefix ks new) as [r Hr].
  pose proof (add_keys_NoDup ks new Hnd) as Hnd'. rewrite Hr in *.
  rewrite add_keys_app, (add_keys_present ks ks) by auto.
  apply add_keys_fresh, Hnd'.
Qed.

Section DictWf.
Context {V : Type}.
Implicit Types (d src : dict V) (k : string) (v : V).

Lemma dict_wf_nil : dict_wf (@nil (string * V)).
Proof. apply NoDup_nil_2. Qed.

Lemma dict_wf_set k v d : dict_wf d -> dict_wf (dict_set k v d).
Proof. unfold dict_wf. rewrite dict_keys_set. apply add_key_NoDup. Qed.

Lemma dict_wf_update d src : dict_wf d -> dict_wf (dict_update d src).
Proof. unfold dict_wf. rewrite dict_keys_update. apply add_keys_NoDup. Qed.

Lemma dict_wf_unpack2 (a b : dict V) : dict_wf (dict_unpack2 a b).
Proof. unfold dict_unpack2. apply dict_wf_update, dict_wf_update, dict_wf_nil. Qed.

(** Two well-formed dicts with the same key order and the same lookups are
    the same dict. *)
Lemma dict_ext (d1 d2 : dict V) :
  dict_wf d1 ->
  dict_keys d1 = dict_keys d2 ->
  (forall k, dict_get k d1 = dict_get k d2) ->
  d1 = d2.
Proof.
  unfold dict_wf, dict_keys. revert d2.
  induction d1 as [|[k1 v1] d1 IH]; intros [|[k2 v2] d2] Hnd Hk Hg;
    simpl in *; try discriminate; [reflexivity|].
  injection Hk as -> Hk. apply NoDup_cons in Hnd as [Hnotin Hnd].
  pose proof (Hg k2) as Hk2. rewrite String.eqb_refl in Hk2.
  injection Hk2 as ->. f_equal.
  apply IH; [assumption..|].
  intros k. pose proof (Hg k) as Hgk.
  destruct (String.eqb_spec k k2) as [Heq|Hne]; [subst k|exact Hgk].
  pose proof Hnotin as Hnotin2. rewrite Hk in Hnotin2.
  apply dict_get_None_keys in Hnotin, Hnotin2. congruence.
Qed.

(** Unpacking the same left operand into an already merged dict is the
    identity, as ordered dicts. *)
Lemma dict_unpack2_idem (a b : dict V) :
  dict_unpack2 a (dict_unpack2 a b) = dict_unpack2 a b.
Proof.
  apply dict_ext.
  - apply dict_wf_unpack2.
  - unfold dict_unpack2. rewrite !dict_keys_update.
    apply add_keys_idem, add_keys_NoDup, NoDup_nil_2.
  - intros k. rewrite dict_get_unpack2_rev.
    rewrite (dict_get_rev k _ (dict_wf_unpack2 a b)).
    rewrite dict_get_unpack2_rev.
    destruct (dict_get k (rev b)); [reflexivity|].
    destruct (dict_get k (rev a)); reflexivity.
Qed.

Lemma dict_keys_unpack2_r k (a b : dict V) :
  k ∈ dict_keys b -> k ∈ dict_keys (dict_unpack2 a b).
Proof.
  intros Hin. apply dict_keys_is_Some. rewrite dict_get_unpack2_rev.
  assert (Hrev : is_Some (dict_get k (rev b))).
  { apply dict_keys_is_Some. unfold dict_keys. rewrite map_rev.
    apply list_elem_of_In, in_rev. rewrite rev_involutive.
    apply list_elem_of_In, Hin. }
  destruct Hrev as [v ->]. eauto.
Qed.

End DictWf.

(** ** The merge of [update_category_data] *)

Lemma list_to_map_dict_get {V} (d : dict V) (k : string) :
  (list_to_map d : gmap string V) !! k = dict_get k d.
Proof.
  induction d as [|[k0 v0] d IH]; simpl; [apply lookup_empty|].
  destruct (String.eqb_spec k k0) as [->|Hne].
  - apply lookup_insert_eq.
  - rewrite lookup_insert_ne by congruence. exact IH.
Qed.

Lemma dict_wf_decide {V} (d : dict V) :
  bool_decide (NoDup (dict_keys d)) = true -> dict_wf d.
Proof. intros H. apply bool_decide_eq_true in H. exact H. Qed.

(** C1, as stated, fails: when the fetched mapping and the existing store
    share the identifier ["2401.00001v1"], the merged store maps it to the
    stored record, not to the freshly fetched one. *)
Lemma merge_new_wins_counterexample :
  let M := [("2401.00001v1", stored_record); ("2312.09999v2", other_record)] in
  merge_data (Some example_fetched) example_store empty_state
    = (empty_state, Return M) /\
  dict_get "2401.00001v1" example_fetched = Some fetched_record /\
  dict_get "2401.00001v1" example_store = Some stored_record /\
  dict_get "2401.00001v1" M = Some stored_record /\
  dict_get "2401.00001v1" M <> dict_get "2401.00001v1" example_fetched.
Proof.
  cbv zeta. split; [reflexivity|]. split; [reflexivity|].
  split; [reflexivity|]. split; [reflexivity|]. discriminate.
Qed.

(** C1 (amended): the merge of a fetched mapping [P] into the existing store
    [E] always succeeds and leaves the state alone; the merged store maps an
    identifier of [E] to the record of [E] (the existing record wins) and any
    other identifier to what [P] maps it to; as a finite map it is the union
    of [E] and [P] with [E] taking precedence on every collision. *)
Theorem merge_existing_wins (P E : dict Paper) (st : state) :
  dict_wf P -> dict_wf E ->
  exists M,
    merge_data (Some P) E st = (st, Return M) /\
    (forall k r, dict_get k E = Some r -> dict_get k M = Some r) /\
    (forall k, dict_get k E = None -> dict_get k M = dict_get k P) /\
    (list_to_map M : gmap string Paper) = list_to_map E ∪ list_to_map P.
Proof.
  intros HP HE. exists (dict_unpack2 P E). split; [reflexivity|].
  split; [|split].
  - intros k r Hk. rewrite dict_get_unpack2, Hk by assumption. reflexivity.
  - intros k Hk. rewrite dict_get_unpack2, Hk by assumption. reflexivity.
  - apply map_eq. intros k.
    rewrite lookup_union, !list_to_map_dict_get, dict_get_unpack2 by assumption.
    destruct (dict_get k E), (dict_get k P); reflexivity.
Qed.

Lemma merge_existing_wins_witness :
  dict_wf example_fetched /\ dict_wf example_store /\
  exists M,
    merge_data (Some example_fetched) example_store empty_state
      = (empty_state, Return M) /\
    (forall k r, dict_get k example_store = Some r -> dict_get k M = Some r) /\
    (forall k, dict_get k example_store = None ->
               dict_get k M = dict_get k example_fetched) /\
    (list_to_map M : gmap string Paper)
      = list_to_map example_store ∪ list_to_map example_fetched.
Proof.
  assert (HP : dict_wf example_fetched) by (apply dict_wf_decide; vm_compute; reflexivity).
  assert (HE : dict_wf example_store) by (apply dict_wf_decide; vm_compute; reflexivity).
  split; [exact HP|]. split; [exact HE|].
  exact (merge_existing_wins example_fetched example_store empty_state HP HE).
Defined.

(** C7: every identifier of the existing store is an identifier of the
    merged store, and still bound to a record there. *)
Theorem merge_keeps_existing (P E : dict Paper) (st : state) :
  exists M,
    merge_data (Some P) E st = (st, Return M) /\
    forall k, k ∈ dict_keys E -> k ∈ dict_keys M /\ is_Some (dict_get k M).
Proof.
  exists (dict_unpack2 P E). split; [reflexivity|].
  intros k Hk. pose proof (dict_keys_unpack2_r k P E Hk) as HM.
  split; [exact HM|]. apply dict_keys_is_Some, HM.
Qed.

(** C8: merging the same fetched mapping a second time, into the store the
    first merge produced, yields that store again. *)
Theorem merge_idempotent (P E : dict Paper) (st : state) :
  exists M,
    merge_data (Some P) E st = (st, Return M) /\
    merge_data (Some P) M st = (st, Return M).
Proof.
  exists (dict_unpack2 P E). split; [reflexivity|].
  simpl. rewrite dict_unpack2_idem. reflexivity.
Qed.

(** ** Frame lemmas *)

Create HintDb frame.

Section Frame.
Context (R : state -> state -> Prop).
Hypothesis R_refl : forall st, R st st.
Hypothesis R_trans : forall st1 st2 st3, R st1 st2 -> R st2 st3 -> R st1 st3.

Lemma preserves_ret {A} (a : A) : preserves R (ret a).
Proof. intros st. apply R_refl. Qed.

Lemma preserves_raise {A} (e : exn) : preserves R (@raise A e).
Proof. intros st. apply R_refl. Qed.

Lemma preserves_bind {A B} (c : py A) (k : A -> py B) :
  preserves R c -> (forall a, preserves R (k a)) -> preserves R (bind c k).
Proof.
  intros Hc Hk st. unfold bind. specialize (Hc st).
  destruct (c st) as [st1 [a|e]]; simpl in *; [|exact Hc].
  eapply R_trans; [exact Hc|apply Hk].
Qed.

Lemma preserves_try_except {A} (c : py A) (h : exn -> py A) :
  preserves R c -> (forall e, preserves R (h e)) -> preserves R (try_except c h).
Proof.
  intros Hc Hh st. unfold try_except. specialize (Hc st).
  destruct (c st) as [st1 [a|e]]; simpl in *; [exact Hc|].
  eapply R_trans; [exact Hc|apply Hh].
Qed.

Lemma preserves_of_result {A} (r : exn + A) : preserves R (of_result r).
Proof. destruct r; intros st; apply R_refl. Qed.

Lemma preserves_getitem {V} (d : dict V) (k : string) : preserves R (getitem d k).
Proof. unfold getitem. destruct (dict_get k d); intros st; apply R_refl. Qed.

Lemma preserves_load_global (globals : list string) (name : string) :
  preserves R (load_global globals name).
Proof. unfold load_global. case_match; intros st; apply R_refl. Qed.

Lemma preserves_get_official (response : payload) : preserves R (get_official response).
Proof. destruct response as [[o|]|]; intros st; apply R_refl. Qed.

Lemma preserves_get_url (official : official_value) : preserves R (get_url official).
Proof. destruct official; intros st; apply R_refl. Qed.

Lemma preserves_get_authors (names : list string) (first_author : bool) :
  preserves R (get_authors names first_author).
Proof. destruct first_author, names; intros st; apply R_refl. Qed.

Lemma preserves_merge_data (papers : option (dict Paper)) (existing_data : dict Paper) :
  preserves R (merge_data papers existing_data).
Proof. destruct papers; intros st; apply R_refl. Qed.

Lemma preserves_os_path_exists (w : World) (path : string) :
  preserves R (os_path_exists w path).
Proof. intros st. apply R_refl. Qed.

Lemma preserves_read_file (w : World) (path : string) :
  preserves R (read_file w path).
Proof.
  intros st. unfold read_file.
  repeat case_match; simpl; apply R_refl.
Qed.

Lemma preserves_json_load (w : World) (path : string) :
  preserves R (json_load w path).
Proof.
  unfold json_load. apply preserves_bind; [apply preserves_read_file|].
  intros [data|s]; intros st; apply R_refl.
Qed.

End Frame.

#[local] Hint Resolve preserves_ret preserves_raise preserves_of_result
  preserves_getitem preserves_load_global preserves_get_official
  preserves_get_url preserves_get_authors preserves_merge_data
  preserves_os_path_exists preserves_json_load : frame.

Lemma same_files_refl st : same_files st st.
Proof. reflexivity. Qed.

Lemma same_files_trans st1 st2 st3 :
  same_files st1 st2 -> same_files st2 st3 -> same_files st1 st3.
Proof. unfold same_files. congruence. Qed.

Lemma log_grows_refl st : log_grows st st.
Proof. exists []. rewrite app_nil_r. reflexivity. Qed.

Lemma log_grows_trans st1 st2 st3 :
  log_grows st1 st2 -> log_grows st2 st3 -> log_grows st1 st3.
Proof.
  intros [l1 H1] [l2 H2]. exists (l1 ++ l2).
  rewrite H2, H1, app_assoc. reflexivity.
Qed.

#[local] Hint Resolve same_files_refl same_files_trans
  log_grows_refl log_grows_trans : frame.

(** What the primitive operations leave alone. *)

Lemma same_files_logging_info m : preserves same_files (logging_info m).
Proof. intros st. reflexivity. Qed.

Lemma same_files_logging_error m : preserves same_files (logging_error m).
Proof. intros st. reflexivity. Qed.

Lemma same_files_print line : preserves same_files (print line).
Proof. intros st. reflexivity. Qed.

Lemma same_files_os_makedirs w path : preserves same_files (os_makedirs w path).
Proof. intros st. unfold os_makedirs. repeat case_match; reflexivity. Qed.

Lemma log_grows_logging_info m : preserves log_grows (logging_info m).
Proof. intros st. eexists. reflexivity. Qed.

Lemma log_grows_logging_error m : preserves log_grows (logging_error m).
Proof. intros st. eexists. reflexivity. Qed.

Lemma log_grows_print line : preserves log_grows (print line).
Proof. intros st. exists []. simpl. rewrite app_nil_r. reflexivity. Qed.

Lemma log_grows_os_makedirs w path : preserves log_grows (os_makedirs w path).
Proof.
  intros st. exists []. unfold os_makedirs.
  repeat case_match; simpl; rewrite app_nil_r; reflexivity.
Qed.

Lemma log_grows_write_file w path content :
  preserves log_grows (write_file w path content).
Proof.
  intros st. exists []. unfold write_file.
  repeat case_match; simpl; rewrite app_nil_r; reflexivity.
Qed.

#[local] Hint Resolve same_files_logging_info same_files_logging_error
  same_files_print same_files_os_makedirs log_grows_logging_info
  log_grows_logging_error log_grows_print log_grows_os_makedirs
  log_grows_write_file : frame.

(** Composite computations are handled by decomposing them along [bind]
    and [try_except]. *)
Ltac frame_step :=
  lazymatch goal with
  | |- forall _, _ => intro
  | |- preserves _ (bind _ _) => apply preserves_bind
  | |- preserves _ (try_except _ _) => apply preserves_try_except
  | |- preserves _ (match _ with _ => _ end) => case_match
  | |- preserves _ (let _ := _ in _) => cbv zeta
  | |- _ => solve [eauto with frame]
  end.

Ltac frame := repeat frame_step.

(** ** The code-link resolver and the fetcher *)

Section ProgramFacts.
Variable globals : list string.
Variable w : World.

Lemma same_files_get_code_link paper_id :
  preserves same_files (get_code_link w paper_id).
Proof. unfold get_code_link. frame. Qed.

Lemma log_grows_get_code_link paper_id :
  preserves log_grows (get_code_link w paper_id).
Proof. unfold get_code_link. frame. Qed.

Hint Resolve same_files_get_code_link log_grows_get_code_link : frame.

Lemma same_files_paper_entry result : preserves same_files (paper_entry w result).
Proof. unfold paper_entry. frame. Qed.

Lemma log_grows_paper_entry result : preserves log_grows (paper_entry w result).
Proof. unfold paper_entry. frame. Qed.

Hint Resolve same_files_paper_entry log_grows_paper_entry : frame.

Lemma same_files_fetch_loop results papers :
  preserves same_files (fetch_loop w results papers).
Proof.
  revert papers. induction results as [|r results IH]; intros papers; simpl; frame.
Qed.

Lemma log_grows_fetch_loop results papers :
  preserves log_grows (fetch_loop w results papers).
Proof.
  revert papers. induction results as [|r results IH]; intros papers; simpl; frame.
Qed.

Hint Resolve same_files_fetch_loop log_grows_fetch_loop : frame.

Lemma same_files_fetch_papers query n :
  preserves same_files (fetch_papers globals w query n).
Proof. unfold fetch_papers. frame. Qed.

Lemma log_grows_fetch_papers query n :
  preserves log_grows (fetch_papers globals w query n).
Proof. unfold fetch_papers. frame. Qed.

Hint Resolve same_files_fetch_papers log_grows_fetch_papers : frame.

(** A call of [fetch_papers] that completes evaluates to [None]. *)
Lemma fetch_papers_returns_None query n st st' v :
  fetch_papers globals w query n st = (st', Return v) -> v = None.
Proof.
  unfold fetch_papers, bind, print, ret. intros H.
  repeat case_match; simplify_eq; reflexivity.
Qed.

Lemma log_grows_generate_markdown data output_path category_name :
  preserves log_grows (generate_markdown w data output_path category_name).
Proof. unfold generate_markdown. frame. Qed.

Hint Resolve log_grows_generate_markdown : frame.

Lemma log_grows_update_category_data cc gc :
  preserves log_grows (update_category_data globals w cc gc).
Proof. unfold update_category_data, json_dump. frame. Qed.

End ProgramFacts.

(** ** The Category Updater never completes *)

Lemma raises_keeping_files_raise {A} (e : exn) : raises_keeping_files (@raise A e).
Proof. intros st. exists st, e. split; reflexivity. Qed.

Lemma raises_keeping_files_bind_l {A B} (c : py A) (k : A -> py B) :
  raises_keeping_files c -> raises_keeping_files (bind c k).
Proof.
  intros Hc st. destruct (Hc st) as (st' & e & Hst & Hf).
  exists st', e. unfold bind. rewrite Hst. split; [reflexivity|exact Hf].
Qed.

(** Sequencing after a computation that writes no file: it is enough that
    the continuation fails on the values [c] can return. *)
Lemma raises_keeping_files_bind {A B} (Q : A -> Prop) (c : py A) (k : A -> py B) :
  preserves same_files c ->
  (forall st st' a, c st = (st', Return a) -> Q a) ->
  (forall a, Q a -> raises_keeping_files (k a)) ->
  raises_keeping_files (bind c k).
Proof.
  intros Hc HQ Hk st. unfold bind.
  pose proof (Hc st) as Hf. pose proof (HQ st) as HQst.
  destruct (c st) as [st1 [a|e]]; simpl in Hf.
  - destruct (Hk a (HQst st1 a eq_refl) st1) as (st' & e & Hst & Hf').
    exists st', e. split; [exact Hst|]. unfold same_files in Hf. congruence.
  - exists st1, e. split; [reflexivity|exact Hf].
Qed.

Lemma raises_keeping_files_merge_None {B} existing_data (k : dict Paper -> py B) :
  raises_keeping_files (bind (merge_data None existing_data) k).
Proof. apply raises_keeping_files_bind_l, raises_keeping_files_raise. Qed.

Ltac keeps c :=
  apply (raises_keeping_files_bind (fun _ => True) c);
  [ frame | trivial | intros ? _ ].

(** In every namespace and every world, [update_category_data] raises and
    leaves every file as it was: the value of [fetch_papers] is [None], which
    the dict display of the merge rejects. *)
Lemma update_category_data_never_completes globals w cc gc :
  raises_keeping_files (update_category_data globals w cc gc).
Proof.
  unfold update_category_data.
  keeps (getitem cc "output_dir"). keeps (os_makedirs w a).
  keeps (getitem cc "query").
  match goal with |- raises_keeping_files (bind ?c _) => keeps c end.
  apply (raises_keeping_files_bind (fun v => v = None) (fetch_papers globals w a1 a2)).
  - apply same_files_fetch_papers.
  - intros st st' v. apply fetch_papers_returns_None.
  - intros papers ->.
    keeps (getitem cc "json_path"). keeps (os_path_exists w a3).
    match goal with |- raises_keeping_files (bind ?c _) => keeps c end.
    apply raises_keeping_files_merge_None.
Qed.

(** ** Directories and files *)

Lemma makedirs_error_None fs path dot keys :
  makedirs_error fs path dot keys = None <->
  Forall (fun key => fs !! key = None) keys.
Proof.
  induction keys as [|key keys IH]; simpl.
  - split; [constructor|reflexivity].
  - destruct (fs !! key) eqn:Hkey.
    + split; [discriminate|]. intros H. inversion H; congruence.
    + rewrite IH. split; [intros H; constructor; assumption|].
      intros H. inversion H; assumption.
Qed.

Lemma walk_directories st path keys :
  Forall (fun key => entry_at st key = Directory) keys ->
  walk st path keys = None.
Proof.
  induction 1 as [|key keys Hkey _ IH]; simpl; [reflexivity|].
  rewrite Hkey. exact IH.
Qed.

Lemma resolve_directories st path :
  Forall (fun key => entry_at st key = Directory) (path_keys path) ->
  resolve st path = AtDirectory.
Proof.
  intros Hall. unfold resolve. destruct (ends_with_dot path).
  - rewrite walk_directories by exact Hall. reflexivity.
  - rewrite walk_directories.
    2:{ rewrite removelast_firstn_len. apply Forall_take, Hall. }
    destruct (last (path_keys path)) as [key|] eqn:Hlast; [|reflexivity].
    apply last_Some_elem_of in Hlast.
    rewrite Forall_forall in Hall. rewrite (Hall key Hlast). reflexivity.
Qed.

(** A directory is there when every directory on the way to it is. *)
Lemma os_path_exists_directories w path st :
  path <> "" -> path_tracked path = true ->
  Forall (fun key => entry_at st key = Directory) (path_keys path) ->
  os_path_exists w path st = (st, Return true).
Proof.
  intros Hne Htracked Hall. unfold os_path_exists.
  destruct (String.eqb_spec path "") as [|_]; [contradiction|].
  rewrite Htracked, resolve_directories by exact Hall. reflexivity.
Qed.

(** What a call of [os.makedirs] that returns has done. *)
Lemma os_makedirs_returns w path st st' :
  os_makedirs w path st = (st', Return tt) ->
  path <> "" /\ files st' = files st /\ log st' = log st /\
  stdout st' = stdout st /\
  (path_tracked path = true ->
   dirs st' = list_to_set (path_keys path) ∪ dirs st /\
   Forall (fun key => files st !! key = None) (path_keys path)).
Proof.
  unfold os_makedirs.
  destruct (String.eqb_spec path "") as [|Hne]; [discriminate|].
  destruct (files st !! path); [discriminate|].
  destruct (path_tracked path).
  - destruct (makedirs_error _ _ _ _) eqn:Herr; [discriminate|].
    intros [= <-]. apply makedirs_error_None in Herr. simpl. auto 10.
  - destruct (untracked_makedirs _ _); [discriminate|].
    intros [= <-]. repeat split; try reflexivity; try assumption; discriminate.
Qed.

(** After [os.makedirs] has returned, the path and every directory on the
    way to it exist. *)
Lemma os_makedirs_creates w path st st' :
  os_makedirs w path st = (st', Return tt) ->
  path_tracked path = true ->
  Forall (fun key => entry_at st' key = Directory) (path_keys path) /\
  os_path_exists w path st' = (st', Return true).
Proof.
  intros Hrun Htracked.
  destruct (os_makedirs_returns _ _ _ _ Hrun) as (Hne & Hfiles & _ & _ & Hdirs).
  destruct (Hdirs Htracked) as [Hd Hfree].
  assert (Hall : Forall (fun key => entry_at st' key = Directory) (path_keys path)).
  { rewrite Forall_forall in *. intros key Hkey. unfold entry_at.
    rewrite Hfiles, (Hfree key Hkey), Hd.
    rewrite bool_decide_eq_true_2; [reflexivity|].
    apply elem_of_union_l, elem_of_list_to_set, Hkey. }
  split; [exact Hall|]. apply os_path_exists_directories; assumption.
Qed.

(** A call of [os.makedirs] that raises has created nothing, and what it
    raises is an exception of the file system. *)
Lemma os_exception_not_NameError failure path name :
  os_exception failure path <> NameError name.
Proof. destruct failure; discriminate. Qed.

Lemma makedirs_error_not_NameError fs path dot keys e name :
  makedirs_error fs path dot keys = Some e -> e <> NameError name.
Proof.
  induction keys as [|key keys IH]; simpl; [discriminate|].
  repeat case_match; try exact IH; intros [= <-]; discriminate.
Qed.

Lemma os_makedirs_raises w path st st' e :
  os_makedirs w path st = (st', Raise e) ->
  st' = st /\ forall name, e <> NameError name.
Proof.
  unfold os_makedirs. intros H.
  repeat case_match; simplify_eq; (split; [reflexivity|]); intros name;
    try discriminate.
  - eapply makedirs_error_not_NameError; eassumption.
  - apply os_exception_not_NameError.
Qed.

(** Whether [os.makedirs] returns for a tracked path is a matter of the
    regular files alone. *)
Lemma os_makedirs_tracked w path st :
  path <> "" -> path_tracked path = true ->
  Forall (fun key => files st !! key = None) (path_keys path) ->
  files st !! path = None ->
  os_makedirs w path st
    = ({| dirs := list_to_set (path_keys path) ∪ dirs st; files := files st;
          log := log st; stdout := stdout st |}, Return tt).
Proof.
  intros Hne Htracked Hfree Hfile. unfold os_makedirs.
  destruct (String.eqb_spec path "") as [|_]; [contradiction|].
  rewrite Hfile, Htracked.
  apply (makedirs_error_None _ path (ends_with_dot path)) in Hfree.
  rewrite Hfree. reflexivity.
Qed.

(** ** C3: the unresolved name [Client] *)

Lemma Client_unbound : bool_decide ("Client" ∈ module_globals ++ builtins) = false.
Proof. vm_compute. reflexivity. Qed.

Lemma fetch_papers_NameError w query n st :
  fetch_papers module_globals w query n st = (st, Raise (NameError "Client")).
Proof.
  unfold fetch_papers, bind, load_global. rewrite Client_unbound. reflexivity.
Qed.

(** The Category Updater up to the fetch: the exception is the [NameError]
    of the fetch exactly when the output directory, the query and
    [max_results] were there and [os.makedirs] returned, and the state is
    then the one [os.makedirs] left. *)
Lemma update_category_data_until_fetch w cc gc st :
  exists st' e,
    update_category_data module_globals w cc gc st = (st', Raise e) /\
    files st' = files st /\ log st' = log st /\ stdout st' = stdout st /\
    (e = NameError "Client" <->
     exists d q n,
       dict_get "output_dir" cc = Some d /\
       os_makedirs w d st = (st', Return tt) /\
       dict_get "query" cc = Some q /\ max_results gc = Some n).
Proof.
  unfold update_category_data, bind, getitem.
  destruct (dict_get "output_dir" cc) as [d|] eqn:Hd; cbn -[fetch_papers os_makedirs].
  2:{ eexists _, _. split; [reflexivity|]. repeat split; try discriminate.
      intros (? & ? & ? & ? & _); discriminate. }
  pose proof (os_makedirs_returns w d st) as Hret.
  pose proof (os_makedirs_raises w d st) as Hraise.
  destruct (os_makedirs w d st) as [st1 [[]|e1]] eqn:Hmk; cbn -[fetch_papers] in *.
  2:{ destruct (Hraise st1 e1 eq_refl) as [-> Hother].
      exists st, e1. split; [reflexivity|]. repeat split; try reflexivity.
      - intros ->. destruct (Hother "Client" eq_refl).
      - intros (d' & q & n & Hd' & Hmk' & _). congruence. }
  destruct (Hret st1 eq_refl) as (_ & Hfiles & Hlog & Hout & _).
  destruct (dict_get "query" cc) as [q|] eqn:Hq; cbn -[fetch_papers].
  2:{ eexists _, _. split; [reflexivity|]. repeat split; try assumption;
        try discriminate.
      intros (? & ? & ? & ? & ? & ? & _); congruence. }
  destruct (max_results gc) as [n|] eqn:Hn; cbn -[fetch_papers].
  2:{ eexists _, _. split; [reflexivity|]. repeat split; try assumption;
        try discriminate.
      intros (? & ? & ? & ? & ? & ? & ?); congruence. }
  rewrite fetch_papers_NameError.
  eexists _, _. split; [reflexivity|]. repeat split; try assumption; eauto 10.
Qed.

(** C3: in the module's own namespace [fetch_papers] raises [NameError] at
    [Client()], before any hit is read or any record built, whatever the
    query and [max_results]; so [update_category_data] always raises, with
    every file, the log and standard output as they were.  The exception is
    that [NameError] exactly when the configuration had the output
    directory, the query and [max_results] and [os.makedirs] returned; the
    state is then the one [os.makedirs] left, in which a tracked output
    directory exists together with every directory on the way to it.  In
    the example the Updater leaves [papers] and [papers/cs.CL] behind; with
    a regular file [a] and the output directory [a/b] it fails in
    [os.makedirs] and creates nothing. *)
Theorem fetch_raises_before_merge (w : World) :
  (forall query n st,
     fetch_papers module_globals w query n st = (st, Raise (NameError "Client"))) /\
  (forall cc gc st,
     exists st' e,
       update_category_data module_globals w cc gc st = (st', Raise e) /\
       files st' = files st /\ log st' = log st /\ stdout st' = stdout st /\
       (e = NameError "Client" <->
        exists d q n,
          dict_get "output_dir" cc = Some d /\
          os_makedirs w d st = (st', Return tt) /\
          dict_get "query" cc = Some q /\ max_results gc = Some n) /\
       (forall d,
          e = NameError "Client" -> dict_get "output_dir" cc = Some d ->
          path_tracked d = true ->
          Forall (fun key => entry_at st' key = Directory) (path_keys d) /\
          os_path_exists w d st' = (st', Return true))) /\
  update_category_data module_globals example_world example_category example_config
      empty_state
    = ({| dirs := {["papers"; "papers/cs.CL"]}; files := ∅; log := []; stdout := [] |},
       Raise (NameError "Client")) /\
  (let st := {| dirs := ∅; files := {["a" := Text "x"]}; log := []; stdout := [] |} in
   update_category_data module_globals example_world
       [("query", "cat:cs.CL"); ("output_dir", "a/b")] example_config st
     = (st, Raise (NotADirectoryError "a/b"))).
Proof.
  split; [intros; apply fetch_papers_NameError|]. split.
  - intros cc gc st.
    destruct (update_category_data_until_fetch w cc gc st)
      as (st' & e & Hrun & Hfiles & Hlog & Hout & Hiff).
    exists st', e. split; [exact Hrun|]. split; [exact Hfiles|].
    split; [exact Hlog|]. split; [exact Hout|]. split; [exact Hiff|].
    intros d He Hd Htracked.
    apply Hiff in He as (d' & q & n & Hd' & Hmk & _).
    assert (d' = d) as -> by congruence.
    exact (os_makedirs_creates _ _ _ _ Hmk Htracked).
  - split; vm_compute; reflexivity.
Qed.

(** ** C2: the discarded result of [fetch_papers] *)

(** C2 fails on the code: a [fetch_papers] that returns hands [None] to the
    merge, whose dict display raises [TypeError]; the store is not written
    and the document is not rendered.  Evaluated in a namespace where
    [Client] is bound, on the first category of the example configuration. *)
Theorem discarded_fetch_result_breaks_merge :
  (forall E st,
     merge_data None E st
       = (st, Raise (TypeError "'NoneType' object is not a mapping"))) /\
  (forall globals w query n st st' v,
     fetch_papers globals w query n st = (st', Return v) -> v = None) /\
  (forall globals w cc gc,
     raises_keeping_files (update_category_data globals w cc gc)) /\
  fetch_papers globals_with_Client example_world "cat:cs.CL" 1 empty_state
    = ({| dirs := ∅; files := ∅; log := []; stdout := ["paper.len:  1"] |},
       Return None) /\
  update_category_data globals_with_Client example_world
      example_category example_config empty_state
    = ({| dirs := {["papers"; "papers/cs.CL"]}; files := ∅; log := [];
          stdout := ["paper.len:  1"] |},
       Raise (TypeError "'NoneType' object is not a mapping")).
Proof.
  split; [reflexivity|]. split; [apply fetch_papers_returns_None|].
  split; [apply update_category_data_never_completes|].
  split; vm_compute; reflexivity.
Qed.

(** ** C5: the Driver *)

Section Driver.
Variable globals : list string.
Variable w : World.

Lemma log_grows_main_loop items config :
  preserves log_grows (main_loop globals w items config).
Proof.
  induction items as [|[name cc] items IH]; simpl; [frame|].
  pose proof (log_grows_update_category_data globals w cc config).
  frame.
Qed.

(** One turn of the loop: the exception of the Category Updater is caught
    and logged under the category's name, and the loop goes on with the
    remaining categories. *)
Lemma main_loop_catches name cc items config st st2 e :
  update_category_data globals w cc config
    (fst (logging_info (ProcessingCategory name) st)) = (st2, Raise e) ->
  main_loop globals w ((name, cc) :: items) config st
    = main_loop globals w items config
        (fst (logging_error (FailedToProcess name e) st2)).
Proof.
  intros Hupd. cbn -[update_category_data]. unfold bind, try_except.
  cbn -[update_category_data] in *. rewrite Hupd. reflexivity.
Qed.

Lemma main_loop_outcome items config st :
  exists st',
    main_loop globals w items config st = (st', Return tt) /\
    files st' = files st /\
    forall name cc, (name, cc) ∈ items ->
      (INFO, ProcessingCategory name) ∈ log st' /\
      exists e, (ERROR, FailedToProcess name e) ∈ log st'.
Proof.
  revert st. induction items as [|[name cc] items IH]; intros st.
  - exists st. split; [reflexivity|]. split; [reflexivity|].
    intros name cc Hin. inversion Hin.
  - set (st1 := fst (logging_info (ProcessingCategory name) st)).
    destruct (update_category_data_never_completes globals w cc config st1)
      as (st2 & e & Hupd & Hfiles).
    rewrite (main_loop_catches name cc items config st st2 e Hupd).
    set (st3 := fst (logging_error (FailedToProcess name e) st2)).
    destruct (IH st3) as (st' & Hrun & Hfiles' & Hlog).
    exists st'. split; [exact Hrun|]. split.
    { rewrite Hfiles'. subst st3 st1. simpl. exact Hfiles. }
    intros name' cc' Hin. apply elem_of_cons in Hin as [Heq|Hin]; [|eauto].
    injection Heq as -> ->.
    pose proof (log_grows_update_category_data globals w cc config st1) as [l2 Hl2].
    rewrite Hupd in Hl2. simpl in Hl2.
    pose proof (log_grows_main_loop items config st3) as [l3 Hl3].
    rewrite Hrun in Hl3. simpl in Hl3.
    rewrite Hl3, Hl2. split.
    + rewrite !elem_of_app. do 3 left. right. apply list_elem_of_here.
    + exists e. rewrite !elem_of_app. left. right. apply list_elem_of_here.
Qed.

End Driver.

(** C5 fails on the code, though not in the Driver: [main] catches the
    exception of every category, logs it under the category's name and goes
    on to the next one, so every configured category is processed; but no
    category ever completes, and no JSON or Markdown file is written.  In
    the example run both categories fail with the [NameError] of
    [fetch_papers]. *)
Theorem driver_continues_but_no_category_completes :
  (forall globals w config st,
     exists st',
       main globals w config st = (st', Return tt) /\
       files st' = files st /\
       forall name cc, (name, cc) ∈ categories config ->
         (INFO, ProcessingCategory name) ∈ log st' /\
         exists e, (ERROR, FailedToProcess name e) ∈ log st') /\
  main module_globals example_world example_config empty_state
    = ({| dirs := {["papers"; "papers/cs.CL"; "papers/cs.CV"]};
          files := ∅;
          log := [ (INFO, ProcessingCategory "cs.CL");
                   (ERROR, FailedToProcess "cs.CL" (NameError "Client"));
                   (INFO, ProcessingCategory "cs.CV");
                   (ERROR, FailedToProcess "cs.CV" (NameError "Client")) ];
          stdout := [] |},
       Return tt).
Proof.
  split.
  - intros globals w config st. apply main_loop_outcome.
  - vm_compute. reflexivity.
Qed.

(** ** C4: a failed code-link lookup *)

Section Resolver.
Variable w : World.

(** The resolver returns in every state: whatever its [try] block raises is
    caught. *)
Lemma get_code_link_returns paper_id st :
  exists st' link, get_code_link w paper_id st = (st', Return link).
Proof.
  unfold get_code_link, try_except, bind, of_result.
  destruct (requests_get_json w _) as [e|[[[url|]|]|]]; simpl; eauto.
Qed.

Lemma paper_entry_returns result st :
  exists st' record,
    paper_entry w result st = (st', Return (get_short_id result, record)) /\
    pdf record = "http://arxiv.org/abs/" +:+ clean_id (get_short_id result).
Proof.
  unfold paper_entry, bind.
  destruct (get_code_link_returns (clean_id (get_short_id result)) st)
    as (st' & link & ->).
  simpl. eauto.
Qed.

(** The loop of the fetcher runs to its end on every list of hits. *)
Lemma fetch_loop_returns results papers st :
  exists st' papers', fetch_loop w results papers st = (st', Return papers').
Proof.
  revert papers st. induction results as [|r results IH]; intros papers st.
  - simpl. unfold ret. eauto.
  - cbn -[paper_entry]. unfold bind.
    destruct (paper_entry_returns r st) as (st1 & record & -> & _).
    apply IH.
Qed.

End Resolver.

(** C4: when the request of the code-link lookup raises, [get_code_link]
    logs the failure and returns [None] instead of raising; the record built
    for a hit with that canonical identifier has the code field ["null"];
    and the loop over the hits of a batch always runs to its end. *)
Theorem code_link_failure_is_absorbed (w : World) (paper_id : string) (e : exn)
    (st : state) :
  requests_get_json w (code_url paper_id) = inl e ->
  let st' := fst (logging_error (FailedToGetCodeLink paper_id e) st) in
  get_code_link w paper_id st = (st', Return None) /\
  (forall result,
     clean_id (get_short_id result) = paper_id ->
     exists record,
       paper_entry w result st = (st', Return (get_short_id result, record)) /\
       code record = "null") /\
  (forall results papers st0,
     exists st1 papers', fetch_loop w results papers st0 = (st1, Return papers')).
Proof.
  intros Hreq st'.
  assert (Hlink : get_code_link w paper_id st = (st', Return None)).
  { unfold get_code_link, try_except, bind, of_result.
    cbv zeta. rewrite Hreq. reflexivity. }
  split; [exact Hlink|]. split.
  - intros result Hid. unfold paper_entry, bind. rewrite Hid, Hlink.
    simpl. eauto.
  - intros results papers st0. apply fetch_loop_returns.
Qed.

Lemma code_link_failure_is_absorbed_witness :
  requests_get_json offline_world (code_url "2401.00001")
    = inl (RequestException "connection refused") /\
  let st' :=
    fst (logging_error
           (FailedToGetCodeLink "2401.00001" (RequestException "connection refused"))
           empty_state) in
  get_code_link offline_world "2401.00001" empty_state = (st', Return None) /\
  (forall result,
     clean_id (get_short_id result) = "2401.00001" ->
     exists record,
       paper_entry offline_world result empty_state
         = (st', Return (get_short_id result, record)) /\
       code record = "null") /\
  (forall results papers st0,
     exists st1 papers',
       fetch_loop offline_world results papers st0 = (st1, Return papers')).
Proof.
  split; [reflexivity|].
  apply (code_link_failure_is_absorbed offline_world "2401.00001"
           (RequestException "connection refused") empty_state).
  reflexivity.
Defined.

(** ** C9: the canonical identifier *)

Lemma str_split_cons sep s : exists w ws, str_split sep s = w :: ws.
Proof.
  induction s as [|c s (w & ws & IH)]; simpl; [eauto|].
  destruct (Ascii.eqb c sep); [eauto|]. rewrite IH. eauto.
Qed.

Lemma clean_id_String c s :
  clean_id (String c s) = if Ascii.eqb c "v" then "" else String c (clean_id s).
Proof.
  unfold clean_id. simpl. destruct (Ascii.eqb c "v"); [reflexivity|].
  destruct (str_split_cons "v" s) as (w & ws & ->). reflexivity.
Qed.

(** An identifier without the letter [v] is its own canonical identifier. *)
Lemma clean_id_without_v s : str_contains "v" s = false -> clean_id s = s.
Proof.
  induction s as [|c s IH]; [reflexivity|]. simpl. rewrite clean_id_String.
  destruct (Ascii.eqb c "v"); [discriminate|]. simpl. intros H.
  rewrite IH by exact H. reflexivity.
Qed.

(** When the base holds no [v], the version suffix is what is cut. *)
Lemma clean_id_versioned base n :
  str_contains "v" base = false -> clean_id (base +:+ "v" +:+ n) = base.
Proof.
  change ("v" +:+ n) with (String "v" n).
  induction base as [|c base IH]; intros H.
  - reflexivity.
  - change (String c base +:+ String "v" n)
      with (String c (base +:+ String "v" n)).
    rewrite clean_id_String. simpl in H.
    destruct (Ascii.eqb c "v"); [discriminate|].
    rewrite IH by exact H. reflexivity.
Qed.

(** C9 fails on the code for an identifier whose base holds the letter [v]:
    the identifier is cut at its first [v], wherever it stands.  The
    old-style identifier ["solv-int/9901001v1"] gets the canonical identifier
    ["sol"] and the PDF URL ["http://arxiv.org/abs/sol"]; without its version
    suffix it is cut all the same. *)
Theorem clean_id_cuts_at_first_v :
  clean_id "solv-int/9901001v1" = "sol" /\
  clean_id "solv-int/9901001" = "sol" /\
  (exists record,
     paper_entry example_world old_style_result empty_state
       = (empty_state, Return ("solv-int/9901001v1", record)) /\
     pdf record = "http://arxiv.org/abs/sol") /\
  (forall w result st,
     exists st' record,
       paper_entry w result st = (st', Return (get_short_id result, record)) /\
       pdf record = "http://arxiv.org/abs/" +:+ clean_id (get_short_id result)).
Proof.
  split; [reflexivity|]. split; [reflexivity|]. split.
  - eexists. split; [vm_compute; reflexivity|reflexivity].
  - intros w result st. apply paper_entry_returns.
Qed.

(** ** C6: the Markdown table *)

Lemma string_ltb_trans a b c :
  String.ltb a b = true -> String.ltb b c = true -> String.ltb a c = true.
Proof.
  unfold String.ltb. intros Hab Hbc.
  destruct (String.compare a b) eqn:Eab; try discriminate.
  destruct (String.compare b c) eqn:Ebc; try discriminate.
  apply String_as_OT.cmp_lt in Eab, Ebc.
  pose proof (String_as_OT.lt_trans _ _ _ Eab Ebc) as Hac.
  apply String_as_OT.cmp_lt in Hac. unfold String_as_OT.cmp in Hac.
  rewrite Hac. reflexivity.
Qed.

Lemma string_leb_cases a b :
  String.leb a b = true <-> a = b \/ String.ltb a b = true.
Proof.
  unfold String.leb, String.ltb. split.
  - destruct (String.compare a b) eqn:E; try discriminate; intros _.
    + left. apply String.compare_eq_iff, E.
    + right. reflexivity.
  - intros [->|H].
    + pose proof (String.compare_antisym b b) as Hanti. revert Hanti.
      destruct (String.compare b b); simpl; intros Hanti;
        [reflexivity|reflexivity|discriminate Hanti].
    + destruct (String.compare a b); try discriminate; reflexivity.
Qed.

Lemma string_leb_trans a b c :
  String.leb a b = true -> String.leb b c = true -> String.leb a c = true.
Proof.
  rewrite !string_leb_cases. intros [->|Hab] [->|Hbc]; auto.
  right. eapply string_ltb_trans; eassumption.
Qed.

Lemma string_ltb_leb a b : String.ltb a b = true -> String.leb a b = true.
Proof. intros H. apply string_leb_cases. right. exact H. Qed.

Lemma string_ltb_false_leb a b : String.ltb a b = false -> String.leb b a = true.
Proof.
  unfold String.ltb, String.leb. rewrite (String.compare_antisym a b).
  destruct (String.compare b a); simpl; intros H;
    [reflexivity|reflexivity|discriminate H].
Qed.

Section SortingFacts.
Context {A : Type} (key : A -> string).

Lemma insert_reverse_Permutation x l :
  Permutation (insert_reverse key x l) (x :: l).
Proof.
  induction l as [|y l IH]; simpl; [apply Permutation_refl|].
  destruct (String.ltb (key x) (key y)); [|apply Permutation_refl].
  rewrite IH. apply perm_swap.
Qed.

Lemma sorted_reverse_Permutation l : Permutation (sorted_reverse key l) l.
Proof.
  induction l as [|x l IH]; simpl; [apply perm_nil|].
  rewrite insert_reverse_Permutation. apply perm_skip, IH.
Qed.


Lemma descending_trans p q r :
  descending key p q -> descending key q r -> descending key p r.
Proof. unfold descending. intros Hpq Hqr. eapply string_leb_trans; eassumption. Qed.

Lemma insert_reverse_sorted x l :
  StronglySorted (descending key) l ->
  StronglySorted (descending key) (insert_reverse key x l).
Proof.
  induction 1 as [|y l Hsorted IH Hy]; simpl.
  - apply SSorted_cons; [apply SSorted_nil|apply List.Forall_nil].
  - destruct (String.ltb (key x) (key y)) eqn:Hlt.
    + apply SSorted_cons; [exact IH|].
      eapply Permutation_Forall;
        [apply Permutation_sym, insert_reverse_Permutation|].
      apply List.Forall_cons; [|exact Hy].
      apply string_ltb_leb, Hlt.
    + assert (Hxy : descending key x y) by apply string_ltb_false_leb, Hlt.
      apply SSorted_cons; [apply SSorted_cons; assumption|].
      apply List.Forall_cons; [exact Hxy|].
      eapply List.Forall_impl; [|exact Hy].
      intros z Hyz. eapply descending_trans; eassumption.
Qed.

Lemma sorted_reverse_sorted l :
  StronglySorted (descending key) (sorted_reverse key l).
Proof.
  induction l as [|x l IH]; simpl; [apply SSorted_nil|].
  apply insert_reverse_sorted, IH.
Qed.



End SortingFacts.

(** *** The text of the document *)

Lemma string_app_assoc (a b c : string) : (a +:+ b) +:+ c = a +:+ (b +:+ c).
Proof.
  induction a as [|x a IH]; [reflexivity|].
  change (String x ((a +:+ b) +:+ c) = String x (a +:+ (b +:+ c))).
  f_equal. exact IH.
Qed.




Lemma str_contains_append c (a b : string) :
  str_contains c (a +:+ b) = str_contains c a || str_contains c b.
Proof.
  induction a as [|x a IH]; [reflexivity|].
  change (Ascii.eqb x c || str_contains c (a +:+ b)
          = Ascii.eqb x c || str_contains c a || str_contains c b).
  rewrite IH, orb_assoc. reflexivity.
Qed.









(** What [generate_markdown] does at a tracked path. *)
Lemma generate_markdown_tracked w data output_path category_name st :
  path_tracked output_path = true ->
  generate_markdown w data output_path category_name st
  = match open_for_writing st output_path with
    | inr key =>
        ({| dirs := dirs st;
            files := <[key := Text (markdown_document w data category_name)]> (files st);
            log := log st ++ [(INFO, GeneratedMarkdown category_name output_path)];
            stdout := stdout st |}, Return tt)
    | inl e => (st, Raise e)
    end.
Proof.
  intros Htracked. unfold generate_markdown, bind, write_file.
  rewrite Htracked. destruct (open_for_writing st output_path); reflexivity.
Qed.




(** ** C10: the derived paths *)

(** For a directory name that is not empty and does not end in a slash, the
    join puts one slash between the directory and the file name. *)
Lemma os_path_join_plain output_dir file :
  str_startswith "/" file = false ->
  output_dir <> "" ->
  str_endswith "/" output_dir = false ->
  os_path_join output_dir file = output_dir +:+ "/" +:+ file.
Proof.
  intros Hfile Hne Hend. unfold os_path_join. rewrite Hfile, Hend.
  destruct (String.eqb_spec output_dir ""); [contradiction|reflexivity].
Qed.

(** The paths an entry of a loaded configuration holds. *)
Lemma derived_entry (cat : dict string) (output_dir : string) :
  dict_get "output_dir" cat = Some output_dir ->
  let cat' :=
    dict_set "md_path" (os_path_join output_dir "README.md")
      (dict_set "json_path" (os_path_join output_dir "papers.json") cat) in
  dict_get "output_dir" cat' = Some output_dir /\
  dict_get "json_path" cat' = Some (os_path_join output_dir "papers.json") /\
  dict_get "md_path" cat' = Some (os_path_join output_dir "README.md").
Proof.
  intros Hd cat'. subst cat'. rewrite !dict_get_set. simpl. auto.
Qed.

Lemma derive_paths_members (cats cats' : dict (dict string)) (st st' : state) :
  derive_paths cats st = (st', Return cats') ->
  st' = st /\
  forall name cat,
    (name, cat) ∈ cats' ->
    exists output_dir,
      dict_get "output_dir" cat = Some output_dir /\
      dict_get "json_path" cat = Some (os_path_join output_dir "papers.json") /\
      dict_get "md_path" cat = Some (os_path_join output_dir "README.md").
Proof.
  revert cats' st st'.
  induction cats as [|[name cat] cats IH]; intros cats' st st'; simpl.
  - unfold ret. intros [= <- <-]. split; [reflexivity|].
    intros name cat Hin. inversion Hin.
  - unfold bind at 1. unfold getitem at 1.
    destruct (dict_get "output_dir" cat) as [d|] eqn:Hd; [|discriminate].
    unfold ret at 1. unfold bind at 1. unfold getitem at 1.
    rewrite dict_get_set, Hd. change (String.eqb "output_dir" "json_path") with false.
    unfold ret at 1. unfold bind at 1.
    destruct (derive_paths cats st) as [st1 [cats1|e]] eqn:Hrest; [|discriminate].
    unfold ret. intros [= <- <-].
    destruct (IH _ _ _ Hrest) as [-> Hcats]. split; [reflexivity|].
    intros name' cat' Hin. apply elem_of_cons in Hin as [Heq|Hin]; [|eauto].
    injection Heq as -> ->. exists d. apply derived_entry, Hd.
Qed.




(** ** The end-to-end scenario of the specification *)

(** The record built for the scenario's hit. *)
Example scenario_record :
  paper_entry example_world example_result empty_state
    = (empty_state, Return ("2401.00001v1", stored_record)).
Proof. vm_compute. reflexivity. Qed.

(** The document rendered for a store holding that record. *)
Example scenario_document :
  markdown_content example_world [("2401.00001v1", stored_record)] "cs.CL"
    = [ "# Cs.Cl Papers";
        "*Last Updated: 2024-01-03*" +:+ String LF "";
        "| Date | Title | Authors | PDF | Code |";
        "|------|-------|---------|-----|------|";
        "| 2024-01-02 | Example Paper | Jane Doe | [PDF](http://arxiv.org/abs/2401.00001) | null |" ].
Proof. vm_compute. reflexivity. Qed.

(** The scenario itself cannot be met: the run writes no file. *)
Example scenario_run :
  script module_globals example_world "config.yaml" empty_state
    = ({| dirs := {["papers"; "papers/cs.CL"; "papers/cs.CV"]};
          files := ∅;
          log := [ (INFO, LoadedConfiguration example_config);
                   (INFO, ProcessingCategory "cs.CL");
                   (ERROR, FailedToProcess "cs.CL" (NameError "Client"));
                   (INFO, ProcessingCategory "cs.CV");
                   (ERROR, FailedToProcess "cs.CV" (NameError "Client")) ];
          stdout := [] |},
       Return tt).
Proof. vm_compute. reflexivity. Qed.

(** * Further properties of the module *)

(** ** More on the merge *)

Section MergeFacts.
Context {V : Type}.
Implicit Types (d a b : dict V) (k : string).

Lemma dict_keys_rev_elem k d : k ∈ dict_keys (rev d) <-> k ∈ dict_keys d.
Proof.
  unfold dict_keys. rewrite map_rev, !list_elem_of_In, <- in_rev. reflexivity.
Qed.

(** Building a dict from the items of a well-formed one gives it back. *)
Lemma dict_update_nil d : dict_wf d -> dict_update [] d = d.
Proof.
  intros Hwf. apply dict_ext.
  - apply dict_wf_update, dict_wf_nil.
  - rewrite dict_keys_update. simpl. apply (add_keys_fresh [] (dict_keys d)), Hwf.
  - intros k. rewrite dict_get_update, (dict_get_rev k d Hwf). simpl.
    destruct (dict_get k d); reflexivity.
Qed.

Lemma dict_keys_unpack2_elem k a b :
  k ∈ dict_keys (dict_unpack2 a b) <-> k ∈ dict_keys a \/ k ∈ dict_keys b.
Proof.
  rewrite <- (dict_keys_rev_elem k a), <- (dict_keys_rev_elem k b).
  rewrite !dict_keys_is_Some, dict_get_unpack2_rev.
  destruct (dict_get k (rev b)) as [v|], (dict_get k (rev a)) as [v'|];
    split; intros H; eauto.
  destruct H as [[? H]|[? H]]; discriminate.
Qed.

End MergeFacts.

(** The keys a store gains are those of [new] it does not hold yet, in the
    order of [new]. *)
Lemma add_keys_filter ks new :
  NoDup new -> add_keys ks new = ks ++ filter (fun k => k ∉ ks) new.
Proof.
  unfold add_keys. revert ks.
  induction new as [|k new IH]; intros ks Hnd; simpl.
  - rewrite app_nil_r. reflexivity.
  - apply NoDup_cons in Hnd as [Hk Hnd]. rewrite (IH _ Hnd).
    rewrite filter_cons. unfold add_key.
    destruct (bool_decide_reflect (k ∈ ks)) as [Hin|Hnin].
    + rewrite decide_False by tauto. reflexivity.
    + rewrite decide_True by exact Hnin. rewrite <- app_assoc. simpl.
      do 2 f_equal. clear IH Hnd.
      induction new as [|k' new IH]; [reflexivity|].
      apply not_elem_of_cons in Hk as [Hne Hk].
      rewrite !filter_cons, (IH Hk).
      destruct (decide (k' ∉ ks ++ [k])) as [H1|H1];
        destruct (decide (k' ∉ ks)) as [H2|H2]; try reflexivity; exfalso.
      * apply H2. intros Hin. apply H1, elem_of_app. left. exact Hin.
      * apply H1. intros Hin. apply elem_of_app in Hin as [Hin|Hin]; [tauto|].
        apply list_elem_of_singleton in Hin. congruence.
Qed.

(** X1: a merge with nothing on one side changes nothing: merging an empty
    fetched mapping gives the existing store back, and merging into an empty
    store gives the fetched mapping. *)
Theorem merge_with_nothing (D : dict Paper) (st : state) :
  dict_wf D ->
  merge_data (Some []) D st = (st, Return D) /\
  merge_data (Some D) [] st = (st, Return D).
Proof.
  intros Hwf. unfold merge_data, dict_unpack2, ret. simpl.
  rewrite (dict_update_nil D Hwf). split; reflexivity.
Qed.

Lemma merge_with_nothing_witness :
  dict_wf example_store /\
  merge_data (Some []) example_store empty_state
    = (empty_state, Return example_store) /\
  merge_data (Some example_store) [] empty_state
    = (empty_state, Return example_store).
Proof.
  assert (Hwf : dict_wf example_store)
    by (apply dict_wf_decide; vm_compute; reflexivity).
  split; [exact Hwf|].
  exact (merge_with_nothing example_store empty_state Hwf).
Defined.

(** X2: the merged store is a well-formed dict whose identifiers are exactly
    those of the fetched mapping and of the existing store. *)
Theorem merge_identifiers (P E : dict Paper) (st : state) :
  exists M,
    merge_data (Some P) E st = (st, Return M) /\
    dict_wf M /\
    forall k, k ∈ dict_keys M <-> k ∈ dict_keys P \/ k ∈ dict_keys E.
Proof.
  exists (dict_unpack2 P E). split; [reflexivity|].
  split; [apply dict_wf_unpack2|]. intros k. apply dict_keys_unpack2_elem.
Qed.

(** X3: in the merged store the fetched identifiers come first, in fetch
    order, followed by the stored identifiers that were not fetched, in
    their stored order. *)
Theorem merge_key_order (P E : dict Paper) (st : state) :
  dict_wf P -> dict_wf E ->
  exists M,
    merge_data (Some P) E st = (st, Return M) /\
    dict_keys M
      = dict_keys P ++ filter (fun k => k ∉ dict_keys P) (dict_keys E).
Proof.
  intros HP HE. exists (dict_unpack2 P E). split; [reflexivity|].
  unfold dict_unpack2. rewrite !dict_keys_update. simpl.
  rewrite (add_keys_fresh [] (dict_keys P) HP). simpl.
  apply add_keys_filter, HE.
Qed.

Lemma merge_key_order_witness :
  dict_wf example_fetched /\ dict_wf example_store /\
  exists M,
    merge_data (Some example_fetched) example_store empty_state
      = (empty_state, Return M) /\
    dict_keys M
      = dict_keys example_fetched
        ++ filter (fun k => k ∉ dict_keys example_fetched) (dict_keys example_store).
Proof.
  assert (HP : dict_wf example_fetched)
    by (apply dict_wf_decide; vm_compute; reflexivity).
  assert (HE : dict_wf example_store)
    by (apply dict_wf_decide; vm_compute; reflexivity).
  split; [exact HP|]. split; [exact HE|].
  exact (merge_key_order example_fetched example_store empty_state HP HE).
Defined.

(** ** [sort_papers] *)

Lemma dict_get_Permutation {V} (d1 d2 : dict V) (k : string) :
  dict_wf d1 -> Permutation d1 d2 -> dict_get k d1 = dict_get k d2.
Proof.
  intros Hwf Hperm. rewrite <- !list_to_map_dict_get.
  rewrite (list_to_map_proper (M := gmap string) d1 d2 Hwf Hperm). reflexivity.
Qed.

(** X4: [sort_papers] keeps every entry of a dict and every lookup, and
    orders the entries by descending key. *)
Theorem sort_papers_sorted {V} (papers : dict V) :
  dict_wf papers ->
  Permutation (sort_papers papers) papers /\
  StronglySorted (descending fst) (sort_papers papers) /\
  forall k, dict_get k (sort_papers papers) = dict_get k papers.
Proof.
  intros Hwf. unfold sort_papers.
  pose proof (sorted_reverse_Permutation fst papers) as Hperm.
  assert (Hwf' : dict_wf (sorted_reverse fst papers)).
  { unfold dict_wf, dict_keys in *.
    pose proof (Permutation_map fst Hperm) as Hkeys.
    rewrite Hkeys. exact Hwf. }
  rewrite (dict_update_nil _ Hwf'). split; [exact Hperm|]. split.
  - apply sorted_reverse_sorted.
  - intros k. apply dict_get_Permutation; assumption.
Qed.

Lemma sort_papers_sorted_witness :
  dict_wf example_store /\
  Permutation (sort_papers example_store) example_store /\
  StronglySorted (descending fst) (sort_papers example_store) /\
  forall k, dict_get k (sort_papers example_store) = dict_get k example_store.
Proof.
  assert (Hwf : dict_wf example_store)
    by (apply dict_wf_decide; vm_compute; reflexivity).
  split; [exact Hwf|]. exact (sort_papers_sorted example_store Hwf).
Defined.

(** ** More on the code-link resolver and the records *)

Section RecordFacts.
Variable w : World.

(** The record of a hit, field by field, given what the resolver returned. *)
Lemma paper_entry_fields result st :
  exists st' link,
    get_code_link w (clean_id (get_short_id result)) st = (st', Return link) /\
    paper_entry w result st
      = (st', Return (get_short_id result,
                      {| title := result_title result;
                         authors := str_join ", " (result_authors result);
                         abstract := str_replace LF " " (result_summary result);
                         pdf := ARXIV_URL +:+ "abs/" +:+ clean_id (get_short_id result);
                         code := str_or link "null";
                         updated := date_isoformat (result_updated result) |})).
Proof.
  destruct (get_code_link_returns w (clean_id (get_short_id result)) st)
    as (st' & link & Hlink).
  exists st', link. split; [exact Hlink|].
  unfold paper_entry, bind. rewrite Hlink. reflexivity.
Qed.

(** What the resolver returns, by the shape of the response. *)
Lemma get_code_link_cases paper_id st st' link :
  get_code_link w paper_id st = (st', Return link) ->
  link = None \/
  (st' = st /\
   requests_get_json w (code_url paper_id)
     = inr (PayloadObject (Some (OfficialObject link)))).
Proof.
  unfold get_code_link, try_except, bind, of_result. cbv zeta.
  destruct (requests_get_json w (code_url paper_id)) as [e|[[[url|]|]|]];
    simpl; intros [= <- <-]; auto.
Qed.

End RecordFacts.

Lemma str_or_nonempty x : str_or x "null" <> "".
Proof.
  unfold str_or. destruct x as [s|]; [|discriminate].
  destruct (String.eqb_spec s ""); [discriminate|assumption].
Qed.

Lemma str_or_cases x : str_or x "null" = "null" \/ x = Some (str_or x "null").
Proof.
  unfold str_or. destruct x as [s|]; [|left; reflexivity].
  destruct (String.eqb s ""); [left|right]; reflexivity.
Qed.

(** X5: a response whose body is not an object, or whose ["official"]
    member is not an object, is absorbed like a failed request: the
    [AttributeError] is logged, [get_code_link] returns [None], and the
    record of the hit gets the code field ["null"]. *)
Theorem malformed_payload_is_absorbed (w : World) (result : Result) (st : state) :
  let paper_id := clean_id (get_short_id result) in
  requests_get_json w (code_url paper_id) = inr PayloadOther \/
  requests_get_json w (code_url paper_id)
    = inr (PayloadObject (Some OfficialOther)) ->
  let st' :=
    fst (logging_error (FailedToGetCodeLink paper_id (AttributeError "get")) st) in
  get_code_link w paper_id st = (st', Return None) /\
  exists record,
    paper_entry w result st = (st', Return (get_short_id result, record)) /\
    code record = "null".
Proof.
  intros paper_id Hbody st'.
  assert (Hlink : get_code_link w paper_id st = (st', Return None)).
  { unfold get_code_link, try_except, bind, of_result. cbv zeta.
    destruct Hbody as [-> | ->]; reflexivity. }
  split; [exact Hlink|].
  unfold paper_entry, bind. fold paper_id. rewrite Hlink. simpl. eauto.
Qed.

Lemma malformed_payload_is_absorbed_witness :
  let paper_id := clean_id (get_short_id example_result) in
  (requests_get_json malformed_world (code_url paper_id) = inr PayloadOther \/
   requests_get_json malformed_world (code_url paper_id)
     = inr (PayloadObject (Some OfficialOther))) /\
  let st' :=
    fst (logging_error (FailedToGetCodeLink paper_id (AttributeError "get"))
           empty_state) in
  get_code_link malformed_world paper_id empty_state = (st', Return None) /\
  exists record,
    paper_entry malformed_world example_result empty_state
      = (st', Return (get_short_id example_result, record)) /\
    code record = "null".
Proof.
  cbv zeta. split; [left; reflexivity|].
  apply (malformed_payload_is_absorbed malformed_world example_result empty_state).
  left. reflexivity.
Defined.

(** X6: the code field of a record is never empty: it is ["null"], or it is
    the URL the service gave for the paper's canonical identifier, and then
    the lookup logged nothing. *)
Theorem code_field_is_sentinel_or_served_url (w : World) (result : Result)
    (st : state) :
  exists st' record,
    paper_entry w result st = (st', Return (get_short_id result, record)) /\
    code record <> "" /\
    (code record = "null" \/
     (st' = st /\
      requests_get_json w (code_url (clean_id (get_short_id result)))
        = inr (PayloadObject (Some (OfficialObject (Some (code record))))))).
Proof.
  destruct (paper_entry_fields w result st) as (st' & link & Hlink & Hentry).
  eexists st', _. split; [exact Hentry|]. simpl.
  split; [apply str_or_nonempty|].
  destruct (str_or_cases link) as [Hnull|Hsome]; [left; exact Hnull|].
  right. destruct (get_code_link_cases w _ _ _ _ Hlink) as [->|[-> Hreq]];
    [discriminate|].
  split; [reflexivity|]. rewrite Hreq, Hsome at 1. reflexivity.
Qed.

Lemma str_replace_removes old new s :
  str_contains old new = false ->
  str_contains old (str_replace old new s) = false.
Proof.
  intros Hnew. induction s as [|c s IH]; simpl; [reflexivity|].
  destruct (Ascii.eqb c old) eqn:Hc.
  - rewrite str_contains_append, Hnew, IH. reflexivity.
  - simpl. rewrite Hc, IH. reflexivity.
Qed.

Lemma str_replace_char_length old new s :
  String.length (str_replace old (String new "") s) = String.length s.
Proof.
  induction s as [|c s IH]; [reflexivity|].
  cbn [str_replace]. destruct (Ascii.eqb c old).
  - change (String new "" +:+ str_replace old (String new "") s)
      with (String new (str_replace old (String new "") s)).
    cbn [String.length]. f_equal. exact IH.
  - cbn [String.length]. f_equal. exact IH.
Qed.

Lemma str_replace_char_map old new s :
  list_ascii_of_string (str_replace old (String new "") s)
  = map (fun c => if Ascii.eqb c old then new else c) (list_ascii_of_string s).
Proof.
  induction s as [|c s IH]; [reflexivity|].
  cbn [str_replace list_ascii_of_string map]. destruct (Ascii.eqb c old).
  - change (String new "" +:+ str_replace old (String new "") s)
      with (String new (str_replace old (String new "") s)).
    cbn [list_ascii_of_string]. f_equal. exact IH.
  - cbn [list_ascii_of_string]. f_equal. exact IH.
Qed.

(** X7: the abstract of a record is the hit's summary, character by
    character, with every line feed turned into one space: a single line of
    the summary's length. *)
Theorem abstract_is_single_line (w : World) (result : Result) (st : state) :
  exists st' record,
    paper_entry w result st = (st', Return (get_short_id result, record)) /\
    list_ascii_of_string (abstract record)
    = map (fun c => if Ascii.eqb c LF then " "%char else c)
        (list_ascii_of_string (result_summary result)) /\
    str_contains LF (abstract record) = false /\
    String.length (abstract record) = String.length (result_summary result).
Proof.
  destruct (paper_entry_fields w result st) as (st' & link & _ & Hentry).
  eexists st', _. split; [exact Hentry|]. simpl. split; [|split].
  - apply str_replace_char_map.
  - apply str_replace_removes. reflexivity.
  - apply str_replace_char_length.
Qed.

(** ** More on the fetcher *)

Section FetcherFacts.
Variable w : World.

(** The loop stores one entry per hit, under the hit's short identifier. *)
Lemma fetch_loop_keys results papers st :
  exists st' papers',
    fetch_loop w results papers st = (st', Return papers') /\
    dict_keys papers' = add_keys (dict_keys papers) (map get_short_id results) /\
    ((forall k r, dict_get k papers = Some r -> pdf_from_key k r) ->
     forall k r, dict_get k papers' = Some r -> pdf_from_key k r).
Proof.
  revert papers st. induction results as [|result results IH]; intros papers st.
  - exists st, papers. repeat split; auto.
  - destruct (paper_entry_fields w result st) as (st1 & link & _ & Hentry).
    cbn -[paper_entry]. unfold bind. rewrite Hentry. cbn [fst snd].
    match goal with |- context [fetch_loop w results ?p st1] =>
      destruct (IH p st1) as (st' & papers' & Hloop & Hkeys & Hinv) end.
    exists st', papers'. split; [exact Hloop|]. split.
    + rewrite Hkeys, dict_keys_set. reflexivity.
    + intros Hold. apply Hinv. intros k r. rewrite dict_get_set.
      destruct (String.eqb_spec k (get_short_id result)) as [->|Hne];
        [|apply Hold].
      intros [= <-]. reflexivity.
Qed.

End FetcherFacts.

Lemma add_keys_elem ks new k : k ∈ add_keys ks new <-> k ∈ ks \/ k ∈ new.
Proof.
  unfold add_keys. revert ks. induction new as [|k' new IH]; intros ks; simpl.
  - split; [auto|]. intros [H|H]; [exact H|inversion H].
  - rewrite IH. unfold add_key. rewrite elem_of_cons.
    destruct (bool_decide_reflect (k' ∈ ks)) as [Hin|Hnin].
    + split; [tauto|]. intros [H|[->|H]]; auto.
    + rewrite elem_of_app, list_elem_of_singleton. tauto.
Qed.

(** X8: the mapping the loop of the fetcher builds is a well-formed dict
    whose keys are exactly the short identifiers of the hits, versions
    included, and every record's PDF link is made from the canonical form
    of its own key. *)
Theorem fetched_mapping_is_keyed_by_short_id (w : World) (results : list Result)
    (st : state) :
  exists st' papers,
    fetch_loop w results [] st = (st', Return papers) /\
    dict_wf papers /\
    (forall k, k ∈ dict_keys papers <-> k ∈ map get_short_id results) /\
    (forall k r, dict_get k papers = Some r -> pdf_from_key k r).
Proof.
  destruct (fetch_loop_keys w results [] st) as (st' & papers & Hloop & Hkeys & Hinv).
  exists st', papers. split; [exact Hloop|]. split; [|split].
  - unfold dict_wf. rewrite Hkeys. apply add_keys_NoDup, NoDup_nil_2.
  - intros k. rewrite Hkeys, add_keys_elem. simpl. split; [|auto].
    intros [H|H]; [inversion H|exact H].
  - apply Hinv. intros k r H. discriminate H.
Qed.

(** X9: when the hits have pairwise distinct short identifiers, the mapping
    holds one record per hit, in the order of the hits. *)
Theorem one_record_per_hit (w : World) (results : list Result) (st : state) :
  NoDup (map get_short_id results) ->
  exists st' papers,
    fetch_loop w results [] st = (st', Return papers) /\
    dict_keys papers = map get_short_id results /\
    length papers = length results.
Proof.
  intros Hnd.
  destruct (fetch_loop_keys w results [] st) as (st' & papers & Hloop & Hkeys & _).
  exists st', papers. split; [exact Hloop|].
  simpl in Hkeys. rewrite (add_keys_fresh [] _ Hnd) in Hkeys. simpl in Hkeys.
  split; [exact Hkeys|].
  apply (f_equal (@length string)) in Hkeys. unfold dict_keys in Hkeys.
  rewrite !List.length_map in Hkeys. exact Hkeys.
Qed.

Lemma one_record_per_hit_witness :
  NoDup (map get_short_id [example_result; old_style_result]) /\
  exists st' papers,
    fetch_loop linked_world [example_result; old_style_result] [] empty_state
      = (st', Return papers) /\
    dict_keys papers = map get_short_id [example_result; old_style_result] /\
    length papers = length [example_result; old_style_result].
Proof.
  assert (Hnd : NoDup (map get_short_id [example_result; old_style_result])).
  { apply (bool_decide_eq_true_1 (NoDup _)). vm_compute. reflexivity. }
  split; [exact Hnd|].
  exact (one_record_per_hit linked_world [example_result; old_style_result]
           empty_state Hnd).
Defined.

(** *** Further frame conditions *)

Lemma same_stdout_refl st : same_stdout st st.
Proof. reflexivity. Qed.

Lemma same_stdout_trans st1 st2 st3 :
  same_stdout st1 st2 -> same_stdout st2 st3 -> same_stdout st1 st3.
Proof. unfold same_stdout. congruence. Qed.

Lemma dirs_grow_refl st : dirs_grow st st.
Proof. unfold dirs_grow. set_solver. Qed.

Lemma dirs_grow_trans st1 st2 st3 :
  dirs_grow st1 st2 -> dirs_grow st2 st3 -> dirs_grow st1 st3.
Proof. unfold dirs_grow. set_solver. Qed.

Lemma log_adds_refl P st : log_adds P st st.
Proof. exists []. rewrite app_nil_r. split; [reflexivity|apply List.Forall_nil]. Qed.

Lemma log_adds_trans P st1 st2 st3 :
  log_adds P st1 st2 -> log_adds P st2 st3 -> log_adds P st1 st3.
Proof.
  intros (l1 & H1 & HP1) (l2 & H2 & HP2). exists (l1 ++ l2).
  rewrite H2, H1, app_assoc. split; [reflexivity|].
  apply List.Forall_app. split; assumption.
Qed.

#[local] Hint Resolve same_stdout_refl same_stdout_trans dirs_grow_refl
  dirs_grow_trans log_adds_refl log_adds_trans : frame.

Lemma same_stdout_logging_info m : preserves same_stdout (logging_info m).
Proof. intros st. reflexivity. Qed.

Lemma same_stdout_logging_error m : preserves same_stdout (logging_error m).
Proof. intros st. reflexivity. Qed.

Lemma same_stdout_os_makedirs w path : preserves same_stdout (os_makedirs w path).
Proof. intros st. unfold os_makedirs. repeat case_match; reflexivity. Qed.

Lemma same_stdout_write_file w path content :
  preserves same_stdout (write_file w path content).
Proof. intros st. unfold write_file. repeat case_match; reflexivity. Qed.

Lemma dirs_grow_logging_info m : preserves dirs_grow (logging_info m).
Proof. intros st. unfold dirs_grow. simpl. set_solver. Qed.

Lemma dirs_grow_logging_error m : preserves dirs_grow (logging_error m).
Proof. intros st. unfold dirs_grow. simpl. set_solver. Qed.

Lemma dirs_grow_print line : preserves dirs_grow (print line).
Proof. intros st. unfold dirs_grow. simpl. set_solver. Qed.

Lemma dirs_grow_os_makedirs w path : preserves dirs_grow (os_makedirs w path).
Proof.
  intros st. unfold os_makedirs, dirs_grow.
  repeat case_match; simpl; set_solver.
Qed.

Lemma dirs_grow_write_file w path content :
  preserves dirs_grow (write_file w path content).
Proof.
  intros st. unfold write_file, dirs_grow. repeat case_match; simpl; set_solver.
Qed.

Lemma log_adds_logging_info (P : level * log_message -> Prop) m :
  P (INFO, m) -> preserves (log_adds P) (logging_info m).
Proof. intros HP st. exists [(INFO, m)]. split; [reflexivity|]. auto. Qed.

Lemma log_adds_logging_error (P : level * log_message -> Prop) m :
  P (ERROR, m) -> preserves (log_adds P) (logging_error m).
Proof. intros HP st. exists [(ERROR, m)]. split; [reflexivity|]. auto. Qed.

Lemma log_adds_print P line : preserves (log_adds P) (print line).
Proof.
  intros st. exists []. simpl. rewrite app_nil_r. split; [reflexivity|auto].
Qed.

Lemma log_adds_os_makedirs P w path : preserves (log_adds P) (os_makedirs w path).
Proof.
  intros st. exists []. unfold os_makedirs.
  repeat case_match; simpl; rewrite app_nil_r; (split; [reflexivity|auto]).
Qed.

Lemma log_adds_write_file P w path content :
  preserves (log_adds P) (write_file w path content).
Proof.
  intros st. exists []. unfold write_file.
  repeat case_match; simpl; rewrite app_nil_r; (split; [reflexivity|auto]).
Qed.

#[local] Hint Resolve same_stdout_logging_info same_stdout_logging_error
  same_stdout_os_makedirs same_stdout_write_file dirs_grow_logging_info
  dirs_grow_logging_error dirs_grow_print dirs_grow_os_makedirs
  dirs_grow_write_file log_adds_print log_adds_os_makedirs
  log_adds_write_file : frame.

Lemma same_stdout_fetch_loop w results papers :
  preserves same_stdout (fetch_loop w results papers).
Proof.
  revert papers. induction results as [|r results IH]; intros papers; simpl;
    unfold paper_entry, get_code_link; frame.
Qed.

(** X10: in a namespace where [Client] is bound, a search that completes
    makes [fetch_papers] build the mapping, print its size on one line, and
    return [None]: the mapping itself is dropped. *)
Theorem fetch_papers_prints_count (globals : list string) (w : World)
    (query : string) (n : Z) (hits : list Result) (st : state) :
  "Client" ∈ globals ->
  arxiv_results w query n = (hits, None) ->
  exists st1 papers,
    fetch_loop w hits [] st = (st1, Return papers) /\
    fetch_papers globals w query n st
      = (fst (print ("paper.len:  " +:+ pretty (length papers)) st1), Return None).
Proof.
  intros HClient Hsearch.
  destruct (fetch_loop_returns w hits [] st) as (st1 & papers & Hloop).
  exists st1, papers. split; [exact Hloop|].
  unfold fetch_papers, bind, load_global.
  rewrite bool_decide_true by (apply elem_of_app; left; exact HClient).
  cbv zeta. rewrite Hsearch. simpl. rewrite Hloop. reflexivity.
Qed.

Lemma fetch_papers_prints_count_witness :
  "Client" ∈ globals_with_Client /\
  arxiv_results example_world "cat:cs.CL" 1 = ([example_result], None) /\
  exists st1 papers,
    fetch_loop example_world [example_result] [] empty_state
      = (st1, Return papers) /\
    fetch_papers globals_with_Client example_world "cat:cs.CL" 1 empty_state
      = (fst (print ("paper.len:  " +:+ pretty (length papers)) st1), Return None).
Proof.
  assert (HClient : "Client" ∈ globals_with_Client) by apply list_elem_of_here.
  split; [exact HClient|]. split; [reflexivity|].
  exact (fetch_papers_prints_count globals_with_Client example_world "cat:cs.CL" 1
           [example_result] empty_state HClient eq_refl).
Defined.

(** X11: when the search fails after yielding some hits, [fetch_papers]
    raises the search's exception once the loop has handled those hits
    (their code-link lookups have run); nothing is printed. *)
Theorem search_failure_propagates (globals : list string) (w : World)
    (query : string) (n : Z) (hits : list Result) (e : exn) (st : state) :
  "Client" ∈ globals ->
  arxiv_results w query n = (hits, Some e) ->
  exists st1 papers,
    fetch_loop w hits [] st = (st1, Return papers) /\
    fetch_papers globals w query n st = (st1, Raise e) /\
    stdout st1 = stdout st.
Proof.
  intros HClient Hsearch.
  destruct (fetch_loop_returns w hits [] st) as (st1 & papers & Hloop).
  exists st1, papers. split; [exact Hloop|]. split.
  - unfold fetch_papers, bind, load_global.
    rewrite bool_decide_true by (apply elem_of_app; left; exact HClient).
    cbv zeta. rewrite Hsearch. simpl. rewrite Hloop. reflexivity.
  - pose proof (same_stdout_fetch_loop w hits [] st) as Hout.
    rewrite Hloop in Hout. exact Hout.
Qed.

Lemma search_failure_propagates_witness :
  "Client" ∈ globals_with_Client /\
  arxiv_results interrupted_world "cat:cs.CL" 1
    = ([example_result], Some (ArxivError "HTTP 503")) /\
  exists st1 papers,
    fetch_loop interrupted_world [example_result] [] empty_state
      = (st1, Return papers) /\
    fetch_papers globals_with_Client interrupted_world "cat:cs.CL" 1 empty_state
      = (st1, Raise (ArxivError "HTTP 503")) /\
    stdout st1 = stdout empty_state.
Proof.
  assert (HClient : "Client" ∈ globals_with_Client) by apply list_elem_of_here.
  split; [exact HClient|]. split; [reflexivity|].
  exact (search_failure_propagates globals_with_Client interrupted_world
           "cat:cs.CL" 1 [example_result] (ArxivError "HTTP 503") empty_state
           HClient eq_refl).
Defined.

(** ** More on the Category Updater *)

(** X12: a category whose ["output_dir"] is missing, empty, or the path of
    an existing file makes [update_category_data] raise at once, with the
    state untouched: no directory is created and nothing is fetched. *)
Theorem unusable_output_dir_fails_cleanly (globals : list string) (w : World)
    (cc : dict string) (gc : Config) (st : state) :
  dict_get "output_dir" cc = None \/
  (exists d, dict_get "output_dir" cc = Some d /\
             (d = "" \/ is_Some (files st !! d))) ->
  update_category_data globals w cc gc st
    = (st, Raise match dict_get "output_dir" cc with
                 | None => KeyError "output_dir"
                 | Some d => if String.eqb d "" then FileNotFoundError d
                             else FileExistsError d
                 end).
Proof.
  unfold update_category_data, bind, getitem, os_makedirs.
  intros [->|(d & -> & Hd)]; [reflexivity|]. cbn -[fetch_papers].
  destruct (String.eqb_spec d "") as [->|Hne]; [reflexivity|].
  destruct Hd as [->|[c ->]]; [contradiction|reflexivity].
Qed.

Lemma unusable_output_dir_fails_cleanly_witness :
  (dict_get "output_dir" [("query", "cat:cs.CL")] = None \/
   (exists d, dict_get "output_dir" [("query", "cat:cs.CL")] = Some d /\
              (d = "" \/ is_Some (files empty_state !! d)))) /\
  update_category_data module_globals example_world [("query", "cat:cs.CL")]
      example_config empty_state
    = (empty_state,
       Raise match dict_get "output_dir" [("query", "cat:cs.CL")] with
             | None => KeyError "output_dir"
             | Some d => if String.eqb d "" then FileNotFoundError d
                         else FileExistsError d
             end).
Proof.
  split; [left; reflexivity|].
  apply (unusable_output_dir_fails_cleanly module_globals example_world
           [("query", "cat:cs.CL")] example_config empty_state).
  left. reflexivity.
Defined.

(** X13: the output directory is created before the query and
    [max_results] are read: when [os.makedirs] returns, a category without
    ["query"], or a configuration without ["max_results"], fails with
    [KeyError] in the state [os.makedirs] left: files, log and standard
    output as before, and, for a tracked path, the output directory and
    every directory on the way to it in place. *)
Theorem directory_is_created_first (globals : list string) (w : World)
    (cc : dict string) (gc : Config) (d : string) (st st1 : state) :
  dict_get "output_dir" cc = Some d ->
  os_makedirs w d st = (st1, Return tt) ->
  dict_get "query" cc = None \/ max_results gc = None ->
  update_category_data globals w cc gc st
    = (st1, Raise (KeyError match dict_get "query" cc with
                            | None => "query"
                            | Some _ => "max_results"
                            end)) /\
  files st1 = files st /\ log st1 = log st /\ stdout st1 = stdout st /\
  (path_tracked d = true ->
   dirs st1 = list_to_set (path_keys d) ∪ dirs st /\
   Forall (fun key => entry_at st1 key = Directory) (path_keys d) /\
   os_path_exists w d st1 = (st1, Return true)).
Proof.
  intros Hd Hmk Hmissing.
  destruct (os_makedirs_returns _ _ _ _ Hmk) as (_ & Hfiles & Hlog & Hout & Hdirs).
  split; [|split; [exact Hfiles|split; [exact Hlog|split; [exact Hout|]]]].
  - unfold update_category_data, bind, getitem.
    rewrite Hd. cbn -[fetch_papers os_makedirs]. rewrite Hmk.
    destruct (dict_get "query" cc) as [q|]; [|reflexivity].
    destruct Hmissing as [Hq| ->]; [discriminate|reflexivity].
  - intros Htracked. split; [apply Hdirs, Htracked|].
    exact (os_makedirs_creates _ _ _ _ Hmk Htracked).
Qed.

Lemma directory_is_created_first_witness :
  let st1 := {| dirs := {["papers"; "papers/cs.CL"]}; files := ∅;
                log := []; stdout := [] |} in
  dict_get "output_dir" [("output_dir", "papers/cs.CL")] = Some "papers/cs.CL" /\
  os_makedirs example_world "papers/cs.CL" empty_state = (st1, Return tt) /\
  (dict_get "query" [("output_dir", "papers/cs.CL")] = None \/
   max_results example_config = None) /\
  update_category_data module_globals example_world
      [("output_dir", "papers/cs.CL")] example_config empty_state
    = (st1, Raise (KeyError "query")) /\
  os_path_exists example_world "papers/cs.CL" st1 = (st1, Return true).
Proof.
  intros st1.
  assert (Hmk : os_makedirs example_world "papers/cs.CL" empty_state
                = (st1, Return tt)) by (vm_compute; reflexivity).
  split; [reflexivity|]. split; [exact Hmk|]. split; [left; reflexivity|].
  destruct (directory_is_created_first module_globals example_world
              [("output_dir", "papers/cs.CL")] example_config "papers/cs.CL"
              empty_state st1 eq_refl Hmk (or_introl eq_refl))
    as (Hrun & _ & _ & _ & Hthere).
  split; [exact Hrun|]. apply Hthere. reflexivity.
Defined.

(** ** More on the Markdown Renderer *)

Lemma walk_insert st st' path keys key content :
  dirs st' = dirs st ->
  files st' = <[key := content]> (files st) ->
  walk st path keys = None ->
  entry_at st key <> Directory ->
  walk st' path keys = None.
Proof.
  intros Hdirs Hfiles Hwalk Hkey. induction keys as [|k keys IH]; [reflexivity|].
  simpl in *. destruct (entry_at st k) eqn:Hk; try discriminate.
  assert (k <> key) as Hne by congruence.
  unfold entry_at in *. rewrite Hdirs, Hfiles.
  rewrite lookup_insert_ne by congruence.
  destruct (files st !! k); [discriminate|].
  destruct (bool_decide (k ∈ dirs st)); [|discriminate]. exact (IH Hwalk).
Qed.

(** A file that could be opened for writing can be opened again once it is
    written, and is the same file. *)
Lemma open_for_writing_again st st' path key content :
  dirs st' = dirs st ->
  files st' = <[key := content]> (files st) ->
  open_for_writing st path = inr key ->
  open_for_writing st' path = inr key.
Proof.
  intros Hdirs Hfiles. unfold open_for_writing, resolve.
  destruct (String.eqb path ""); [discriminate|].
  destruct (ends_with_dot path); [destruct (walk _ _ _); discriminate|].
  destruct (walk st path (removelast (path_keys path))) eqn:Hwalk; [discriminate|].
  destruct (last (path_keys path)) as [k|]; [|discriminate].
  destruct (entry_at st k) eqn:Hk; try discriminate;
    (destruct (ends_with_slash path); [discriminate|]); intros [= <-];
    (rewrite (walk_insert st st' _ _ k content Hdirs Hfiles Hwalk) by congruence);
    unfold entry_at; rewrite Hfiles, lookup_insert_eq; reflexivity.
Qed.

(** X14: the document is written in full each time: when a first mapping
    could be rendered to a tracked path, rendering a second one to the same
    path succeeds and leaves the files as if only the second had been
    rendered: the file holds the second document, no other file is touched,
    and no directory is made. *)
Theorem markdown_overwrites_in_full (w : World) (data1 data2 : dict Paper)
    (output_path category_name : string) (st st1 : state) :
  path_tracked output_path = true ->
  generate_markdown w data1 output_path category_name st = (st1, Return tt) ->
  exists key st2 st2',
    open_for_writing st output_path = inr key /\
    files st1 !! key = Some (Text (markdown_document w data1 category_name)) /\
    generate_markdown w data2 output_path category_name st1 = (st2, Return tt) /\
    generate_markdown w data2 output_path category_name st = (st2', Return tt) /\
    files st2 = files st2' /\
    files st2 !! key = Some (Text (markdown_document w data2 category_name)) /\
    (forall p, p <> key -> files st2 !! p = files st !! p) /\
    dirs st2 = dirs st.
Proof.
  intros Htracked. rewrite generate_markdown_tracked by exact Htracked.
  destruct (open_for_writing st output_path) as [e|key] eqn:Hopen; [discriminate|].
  intros [= <-]. exists key. eexists _, _.
  split; [reflexivity|]. split; [cbn [files]; apply lookup_insert_eq|].
  split.
  { rewrite generate_markdown_tracked by exact Htracked.
    erewrite open_for_writing_again; [reflexivity| | |exact Hopen]; reflexivity. }
  split.
  { rewrite generate_markdown_tracked by exact Htracked. rewrite Hopen. reflexivity. }
  cbn [files dirs]. split; [apply insert_insert_eq|].
  split; [apply lookup_insert_eq|]. split; [|reflexivity].
  intros p Hp. rewrite !lookup_insert_ne by congruence. reflexivity.
Qed.

Lemma markdown_overwrites_in_full_witness :
  let st := {| dirs := {["papers"; "papers/cs.CL"]}; files := ∅;
               log := []; stdout := [] |} in
  path_tracked "papers/cs.CL/README.md" = true /\
  exists st1 st2,
    generate_markdown example_world example_store "papers/cs.CL/README.md"
      "cs.CL" st = (st1, Return tt) /\
    generate_markdown example_world example_fetched "papers/cs.CL/README.md"
      "cs.CL" st1 = (st2, Return tt) /\
    files st2 !! "papers/cs.CL/README.md"
    = Some (Text (markdown_document example_world example_fetched "cs.CL")) /\
    (forall p, p <> "papers/cs.CL/README.md" -> files st2 !! p = files st !! p) /\
    dirs st2 = dirs st.
Proof.
  intros st.
  split; [reflexivity|].
  destruct (generate_markdown example_world example_store "papers/cs.CL/README.md"
              "cs.CL" st) as [st1 [[]|e]] eqn:Hfirst;
    [|vm_compute in Hfirst; discriminate].
  destruct (markdown_overwrites_in_full example_world example_store example_fetched
              "papers/cs.CL/README.md" "cs.CL" st st1 eq_refl Hfirst)
    as (key & st2 & st2' & Hopen & _ & Hsecond & _ & _ & Hfile & Hothers & Hdirs).
  assert (key = "papers/cs.CL/README.md") as ->
    by (vm_compute in Hopen; congruence).
  exists st1, st2. auto.
Defined.

(** ** More on the Driver and the script *)

(** Whatever the primitive effects of the module preserve, the Category
    Updater and the Driver preserve. *)
Section ModuleFrame.
Context (R : state -> state -> Prop).
Hypothesis R_refl : forall st, R st st.
Hypothesis R_trans : forall st1 st2 st3, R st1 st2 -> R st2 st3 -> R st1 st3.
Hypothesis R_print : forall line, preserves R (print line).
Hypothesis R_makedirs : forall w path, preserves R (os_makedirs w path).
Hypothesis R_write : forall w path content, preserves R (write_file w path content).
Hypothesis R_code_link :
  forall paper_id e, preserves R (logging_error (FailedToGetCodeLink paper_id e)).
Hypothesis R_generated :
  forall name path, preserves R (logging_info (GeneratedMarkdown name path)).

Variable globals : list string.
Variable w : World.

Hint Resolve R_refl R_trans R_print R_makedirs R_write R_code_link
  R_generated : frame.

Lemma preserves_fetch_loop results papers :
  preserves R (fetch_loop w results papers).
Proof.
  revert papers. induction results as [|r results IH]; intros papers; simpl;
    unfold paper_entry, get_code_link; frame.
Qed.

Hint Resolve preserves_fetch_loop : frame.

Lemma preserves_update_category_data cc gc :
  preserves R (update_category_data globals w cc gc).
Proof.
  unfold update_category_data, fetch_papers, generate_markdown, json_dump.
  frame.
Qed.

Hypothesis R_processing :
  forall name, preserves R (logging_info (ProcessingCategory name)).
Hypothesis R_updated :
  forall name, preserves R (logging_info (SuccessfullyUpdated name)).
Hypothesis R_failed :
  forall name e, preserves R (logging_error (FailedToProcess name e)).

Hint Resolve preserves_update_category_data R_processing R_updated
  R_failed : frame.

Lemma preserves_main_loop items config :
  preserves R (main_loop globals w items config).
Proof. induction items as [|[name cc] items IH]; simpl; frame. Qed.

End ModuleFrame.

Lemma processed_app l1 l2 : processed (l1 ++ l2) = processed l1 ++ processed l2.
Proof. unfold processed. apply omap_app. Qed.

Lemma processed_no_start l :
  Forall (fun r => is_start r = false) l -> processed l = [].
Proof.
  induction 1 as [|[[] []] l Hr _ IH]; simpl; try exact IH; try reflexivity.
  discriminate Hr.
Qed.

Lemma update_category_data_logs_no_start globals w cc gc :
  preserves (log_adds (fun r => is_start r = false))
    (update_category_data globals w cc gc).
Proof.
  apply preserves_update_category_data; intros;
    first [ apply log_adds_logging_info; reflexivity
          | apply log_adds_logging_error; reflexivity
          | eauto with frame ].
Qed.

Lemma main_processed (globals : list string) (w : World) (config : Config)
    (st : state) :
  exists st',
    main globals w config st = (st', Return tt) /\
    files st' = files st /\
    processed (log st') = processed (log st) ++ dict_keys (categories config).
Proof.
  unfold main. generalize (categories config) as items. intros items. revert st.
  induction items as [|[name cc] items IH]; intros st.
  - exists st. split; [reflexivity|]. split; [reflexivity|].
    simpl. rewrite app_nil_r. reflexivity.
  - set (st1 := fst (logging_info (ProcessingCategory name) st)).
    destruct (update_category_data_never_completes globals w cc config st1)
      as (st2 & e & Hupd & Hfiles2).
    rewrite (main_loop_catches globals w name cc items config st st2 e Hupd).
    destruct (IH (fst (logging_error (FailedToProcess name e) st2)))
      as (st' & Hrun & Hfiles & Hlog).
    exists st'. split; [exact Hrun|]. split.
    { rewrite Hfiles. simpl. rewrite Hfiles2. reflexivity. }
    rewrite Hlog.
    destruct (update_category_data_logs_no_start globals w cc config st1)
      as (l & Hl & Hnone).
    rewrite Hupd in Hl. cbn [fst] in Hl. simpl. rewrite Hl. subst st1. simpl.
    rewrite !processed_app, (processed_no_start l Hnone). simpl.
    rewrite !app_nil_r, <- app_assoc. reflexivity.
Qed.

(** X15: [main] handles the categories in the order the configuration
    declares them, each exactly once: the start messages it adds to the log
    name the categories in that order. *)
Theorem categories_are_processed_in_order (globals : list string) (w : World)
    (config : Config) (st : state) :
  exists st',
    main globals w config st = (st', Return tt) /\
    processed (log st') = processed (log st) ++ dict_keys (categories config).
Proof.
  destruct (main_processed globals w config st) as (st' & Hrun & _ & Hlog).
  exists st'. split; assumption.
Qed.

Lemma dirs_grow_fetch_loop w results papers :
  preserves dirs_grow (fetch_loop w results papers).
Proof. apply preserves_fetch_loop; eauto with frame. Qed.

Lemma dirs_grow_main_loop globals w items config :
  preserves dirs_grow (main_loop globals w items config).
Proof. apply preserves_main_loop; eauto with frame. Qed.

(** A directory stays one while directories are only added and the files
    stay as they are. *)
Lemma directories_kept st st' keys :
  dirs_grow st st' -> files st' = files st ->
  Forall (fun key => entry_at st key = Directory) keys ->
  Forall (fun key => entry_at st' key = Directory) keys.
Proof.
  intros Hdirs Hfiles Hall. eapply Forall_impl; [exact Hall|].
  intros key. unfold entry_at. rewrite Hfiles. destruct (files st !! key); [discriminate|].
  destruct (bool_decide_reflect (key ∈ dirs st)) as [Hin|]; [|discriminate].
  intros _. rewrite bool_decide_eq_true_2; [reflexivity|]. apply Hdirs, Hin.
Qed.

(** Once the directories are made, the rest of the Category Updater keeps
    them. *)
Lemma update_category_data_after_makedirs globals w cc gc d st st1 :
  dict_get "output_dir" cc = Some d ->
  os_makedirs w d st = (st1, Return tt) ->
  dirs_grow st1 (fst (update_category_data globals w cc gc st)).
Proof.
  intros Hd Hmk.
  unfold update_category_data, bind at 1, getitem at 1. rewrite Hd.
  unfold ret at 1. unfold bind at 1. rewrite Hmk.
  match goal with |- dirs_grow _ (fst (?k ?s)) =>
    assert (Hk : preserves dirs_grow k); [|exact (Hk s)] end.
  pose proof dirs_grow_fetch_loop.
  unfold fetch_papers, generate_markdown, json_dump. frame.
Qed.

Lemma update_category_data_creates_directory globals w cc gc d st st1 :
  dict_get "output_dir" cc = Some d ->
  path_tracked d = true ->
  os_makedirs w d st = (st1, Return tt) ->
  Forall (fun key => entry_at (fst (update_category_data globals w cc gc st)) key
                     = Directory) (path_keys d).
Proof.
  intros Hd Htracked Hmk.
  destruct (os_makedirs_creates _ _ _ _ Hmk Htracked) as [Hall _].
  destruct (os_makedirs_returns _ _ _ _ Hmk) as (_ & Hfiles1 & _).
  pose proof (update_category_data_after_makedirs globals w cc gc d st st1 Hd Hmk)
    as Hgrow.
  destruct (update_category_data_never_completes globals w cc gc st)
    as (st2 & e & Hupd & Hfiles).
  rewrite Hupd in *. cbn [fst] in *.
  apply (directories_kept st1 st2); [exact Hgrow|congruence|exact Hall].
Qed.

(** Whether [os.makedirs] returns does not change while the files stay as
    they are. *)
Lemma os_makedirs_same_files w d st st1 st' :
  path_tracked d = true ->
  os_makedirs w d st = (st1, Return tt) ->
  files st' = files st ->
  exists st1', os_makedirs w d st' = (st1', Return tt).
Proof.
  intros Htracked Hmk Hfiles.
  destruct (os_makedirs_returns _ _ _ _ Hmk) as (Hne & _ & _ & _ & Hdirs).
  destruct (Hdirs Htracked) as [_ Hfree].
  eexists. apply os_makedirs_tracked; try assumption.
  - rewrite Hfiles. exact Hfree.
  - rewrite Hfiles. unfold os_makedirs in Hmk.
    destruct (String.eqb d ""); [discriminate|].
    destruct (files st !! d); [discriminate|reflexivity].
Qed.

Lemma main_loop_leaves_directory globals w items config name cc d st st1 :
  (name, cc) ∈ items ->
  dict_get "output_dir" cc = Some d ->
  path_tracked d = true ->
  os_makedirs w d st = (st1, Return tt) ->
  Forall (fun key => entry_at (fst (main_loop globals w items config st)) key
                     = Directory) (path_keys d).
Proof.
  intros Hin Hd Htracked. revert st st1.
  induction items as [|[name' cc'] items IH]; intros st st1 Hmk; [inversion Hin|].
  set (st2 := fst (logging_info (ProcessingCategory name') st)).
  destruct (update_category_data_never_completes globals w cc' config st2)
    as (st3 & e & Hupd & Hfiles).
  rewrite (main_loop_catches globals w name' cc' items config st st3 e Hupd).
  set (st4 := fst (logging_error (FailedToProcess name' e) st3)).
  apply elem_of_cons in Hin as [[= <- <-]|Hin].
  - destruct (os_makedirs_same_files w d st st1 st2 Htracked Hmk eq_refl)
      as [st2' Hmk2].
    pose proof (update_category_data_creates_directory globals w cc config d
                  st2 st2' Hd Htracked Hmk2) as Hall.
    rewrite Hupd in Hall. cbn [fst] in Hall.
    destruct (main_loop_outcome globals w items config st4)
      as (st' & Hrun & Hfiles' & _).
    pose proof (dirs_grow_main_loop globals w items config st4) as Hgrow.
    rewrite Hrun in *. cbn [fst] in *.
    apply (directories_kept st3 st'); [exact Hgrow|exact Hfiles'|exact Hall].
  - assert (Hfiles4 : files st4 = files st).
    { change (files st4) with (files st3). rewrite Hfiles. reflexivity. }
    destruct (os_makedirs_same_files w d st st1 st4 Htracked Hmk Hfiles4)
      as [st4' Hmk4].
    exact (IH Hin st4 st4' Hmk4).
Qed.

(** X16: what a failed category has done is not rolled back: when
    [os.makedirs] returns for the tracked output directory of a category in
    the state [main] starts in, then after [main] that directory exists,
    with every directory on the way to it, although the category failed and
    no file was written. *)
Theorem failed_category_leaves_its_directory (globals : list string) (w : World)
    (config : Config) (name : string) (cc : dict string) (d : string)
    (st st1 : state) :
  (name, cc) ∈ categories config ->
  dict_get "output_dir" cc = Some d ->
  path_tracked d = true ->
  os_makedirs w d st = (st1, Return tt) ->
  exists st',
    main globals w config st = (st', Return tt) /\
    Forall (fun key => entry_at st' key = Directory) (path_keys d) /\
    os_path_exists w d st' = (st', Return true) /\
    files st' = files st.
Proof.
  intros Hin Hd Htracked Hmk.
  destruct (main_loop_outcome globals w (categories config) config st)
    as (st' & Hrun & Hfiles & _).
  exists st'. split; [exact Hrun|].
  pose proof (main_loop_leaves_directory globals w _ config name cc d st st1
                Hin Hd Htracked Hmk) as Hall.
  rewrite Hrun in Hall. cbn [fst] in Hall.
  split; [exact Hall|]. split; [|exact Hfiles].
  apply os_path_exists_directories; [|exact Htracked|exact Hall].
  apply (os_makedirs_returns _ _ _ _ Hmk).
Qed.

Lemma failed_category_leaves_its_directory_witness :
  ("cs.CV", [("query", "cat:cs.CV"); ("output_dir", "papers/cs.CV");
             ("json_path", "papers/cs.CV/papers.json");
             ("md_path", "papers/cs.CV/README.md")])
    ∈ categories example_config /\
  path_tracked "papers/cs.CV" = true /\
  os_makedirs example_world "papers/cs.CV" empty_state
    = ({| dirs := {["papers"; "papers/cs.CV"]}; files := ∅; log := [];
          stdout := [] |}, Return tt) /\
  exists st',
    main module_globals example_world example_config empty_state
      = (st', Return tt) /\
    Forall (fun key => entry_at st' key = Directory) ["papers"; "papers/cs.CV"] /\
    os_path_exists example_world "papers/cs.CV" st' = (st', Return true) /\
    files st' = files empty_state.
Proof.
  assert (Hin : ("cs.CV", [("query", "cat:cs.CV"); ("output_dir", "papers/cs.CV");
                           ("json_path", "papers/cs.CV/papers.json");
                           ("md_path", "papers/cs.CV/README.md")])
                  ∈ categories example_config).
  { apply list_elem_of_further, list_elem_of_here. }
  assert (Hmk : os_makedirs example_world "papers/cs.CV" empty_state
                = ({| dirs := {["papers"; "papers/cs.CV"]}; files := ∅; log := [];
                      stdout := [] |}, Return tt)) by (vm_compute; reflexivity).
  split; [exact Hin|]. split; [reflexivity|]. split; [exact Hmk|].
  exact (failed_category_leaves_its_directory module_globals example_world
           example_config "cs.CV" _ "papers/cs.CV" empty_state _
           Hin eq_refl eq_refl Hmk).
Defined.

Lemma derive_paths_state cats st : fst (derive_paths cats st) = st.
Proof.
  revert st. induction cats as [|[name cat] cats IH]; intros st; [reflexivity|].
  simpl. unfold bind at 1. unfold getitem at 1.
  destruct (dict_get "output_dir" cat) as [d|] eqn:Hd; [|reflexivity].
  unfold ret at 1. unfold bind at 1. unfold getitem at 1.
  rewrite dict_get_set, Hd. change (String.eqb "output_dir" "json_path") with false.
  unfold ret at 1. unfold bind at 1. specialize (IH st).
  destruct (derive_paths cats st) as [st1 [cats'|e]]; simpl in *; exact IH.
Qed.

Lemma load_config_raises_state w config_file st st1 e :
  load_config w config_file st = (st1, Raise e) -> st1 = st.
Proof.
  unfold load_config, bind, of_result.
  destruct (yaml_safe_load w config_file) as [e0|parsed].
  - intros [= <- _]. reflexivity.
  - unfold ret at 1. pose proof (derive_paths_state (categories parsed) st) as Hst.
    destruct (derive_paths (categories parsed) st) as [st2 [cats|e0]];
      simpl in Hst; subst st2; [discriminate|].
    intros [= <- _]. reflexivity.
Qed.

(** X17: a configuration error is fatal and happens before anything else:
    when [load_config] raises, the script ends with that exception in the
    state it started in (nothing logged, no directory made, no category
    processed). *)
Theorem configuration_error_is_fatal (globals : list string) (w : World)
    (config_file : string) (st st1 : state) (e : exn) :
  load_config w config_file st = (st1, Raise e) ->
  st1 = st /\ script globals w config_file st = (st, Raise e).
Proof.
  intros Hload. pose proof (load_config_raises_state _ _ _ _ _ Hload) as ->.
  split; [reflexivity|]. unfold script, bind. rewrite Hload. reflexivity.
Qed.

Lemma configuration_error_is_fatal_witness :
  load_config broken_config_world "config.yaml" empty_state
    = (empty_state, Raise (YAMLError "mapping values are not allowed here")) /\
  empty_state = empty_state /\
  script module_globals broken_config_world "config.yaml" empty_state
    = (empty_state, Raise (YAMLError "mapping values are not allowed here")).
Proof.
  split; [reflexivity|].
  exact (configuration_error_is_fatal module_globals broken_config_world
           "config.yaml" empty_state empty_state
           (YAMLError "mapping values are not allowed here") eq_refl).
Defined.

Lemma derive_paths_missing cats st name cat :
  (name, cat) ∈ cats ->
  dict_get "output_dir" cat = None ->
  derive_paths cats st = (st, Raise (KeyError "output_dir")).
Proof.
  intros Hin Hnone. induction cats as [|[name' cat'] cats IH]; [inversion Hin|].
  simpl. unfold bind at 1. unfold getitem at 1.
  destruct (dict_get "output_dir" cat') as [d|] eqn:Hd.
  - unfold ret at 1. unfold bind at 1. unfold getitem at 1.
    rewrite dict_get_set, Hd. change (String.eqb "output_dir" "json_path") with false.
    unfold ret at 1. unfold bind at 1.
    apply elem_of_cons in Hin as [[= -> ->]|Hin]; [congruence|].
    rewrite (IH Hin). reflexivity.
  - reflexivity.
Qed.

(** X18: a configuration in which some category has no ["output_dir"] is
    rejected as a whole: [load_config] raises [KeyError] for that key,
    returns no configuration and logs nothing, even when other categories
    are complete. *)
Theorem category_without_output_dir_is_rejected (w : World) (config_file : string)
    (parsed : Config) (name : string) (cat : dict string) (st : state) :
  yaml_safe_load w config_file = inr parsed ->
  (name, cat) ∈ categories parsed ->
  dict_get "output_dir" cat = None ->
  load_config w config_file st = (st, Raise (KeyError "output_dir")).
Proof.
  intros Hparse Hin Hnone. unfold load_config, bind, of_result.
  rewrite Hparse. unfold ret at 1.
  rewrite (derive_paths_missing _ st name cat Hin Hnone). reflexivity.
Qed.

Lemma category_without_output_dir_is_rejected_witness :
  yaml_safe_load incomplete_config_world "config.yaml"
    = inr {| categories :=
               [ ("cs.CL", [("query", "cat:cs.CL"); ("output_dir", "papers/cs.CL")]);
                 ("cs.CV", [("query", "cat:cs.CV")]) ];
             max_results := Some 1%Z |} /\
  ("cs.CV", [("query", "cat:cs.CV")])
    ∈ [ ("cs.CL", [("query", "cat:cs.CL"); ("output_dir", "papers/cs.CL")]);
        ("cs.CV", [("query", "cat:cs.CV")]) ] /\
  dict_get "output_dir" [("query", "cat:cs.CV")] = None /\
  load_config incomplete_config_world "config.yaml" empty_state
    = (empty_state, Raise (KeyError "output_dir")).
Proof.
  assert (Hin : ("cs.CV", [("query", "cat:cs.CV")])
                  ∈ [ ("cs.CL", [("query", "cat:cs.CL");
                                 ("output_dir", "papers/cs.CL")]);
                      ("cs.CV", [("query", "cat:cs.CV")]) ])
    by apply list_elem_of_further, list_elem_of_here.
  split; [reflexivity|]. split; [exact Hin|]. split; [reflexivity|].
  exact (category_without_output_dir_is_rejected incomplete_config_world
           "config.yaml" _ "cs.CV" [("query", "cat:cs.CV")] empty_state
           eq_refl Hin eq_refl).
Defined.

(** X19: once the configuration has loaded, the script ends normally
    whatever happens to the categories: it returns, has started every
    category in the declared order, and has written no file. *)
Theorem script_survives_category_failures (globals : list string) (w : World)
    (config_file : string) (st st1 : state) (config : Config) :
  load_config w config_file st = (st1, Return config) ->
  exists st',
    script globals w config_file st = (st', Return tt) /\
    files st' = files st /\
    processed (log st') = processed (log st) ++ dict_keys (categories config).
Proof.
  intros Hload.
  destruct (main_processed globals w config st1)
    as (st' & Hrun & Hfiles & Hlog).
  exists st'. split; [unfold script, bind; rewrite Hload; exact Hrun|].
  assert (Hst1 : files st1 = files st /\ processed (log st1) = processed (log st)).
  { revert Hload. unfold load_config, bind, of_result.
    destruct (yaml_safe_load w config_file) as [e0|parsed]; [discriminate|].
    unfold ret at 1. pose proof (derive_paths_state (categories parsed) st) as Hst.
    destruct (derive_paths (categories parsed) st) as [st2 [cats|e0]];
      simpl in Hst; subst st2; [|discriminate].
    intros [= <- _]. simpl. rewrite processed_app. simpl.
    rewrite app_nil_r. split; reflexivity. }
  destruct Hst1 as [Hf Hp]. rewrite Hfiles, Hlog, Hf, Hp. split; reflexivity.
Qed.

Lemma script_survives_category_failures_witness :
  load_config example_world "config.yaml" empty_state
    = (fst (logging_info (LoadedConfiguration example_config) empty_state),
       Return example_config) /\
  exists st',
    script module_globals example_world "config.yaml" empty_state
      = (st', Return tt) /\
    files st' = files empty_state /\
    processed (log st')
      = processed (log empty_state) ++ dict_keys (categories example_config).
Proof.
  split; [reflexivity|].
  exact (script_survives_category_failures module_globals example_world
           "config.yaml" empty_state _ example_config eq_refl).
Defined.

(** ** More on the Config Loader *)

Lemma derive_paths_same_settings cats cats' st st' :
  derive_paths cats st = (st', Return cats') ->
  Forall2 same_settings cats cats'.
Proof.
  revert cats' st'. induction cats as [|[name cat] cats IH]; intros cats' st'.
  - simpl. unfold ret. intros [= _ <-]. constructor.
  - simpl. unfold bind at 1. unfold getitem at 1.
    destruct (dict_get "output_dir" cat) as [d|] eqn:Hd; [|discriminate].
    unfold ret at 1. unfold bind at 1. unfold getitem at 1.
    rewrite dict_get_set, Hd. change (String.eqb "output_dir" "json_path") with false.
    unfold ret at 1. unfold bind at 1.
    destruct (derive_paths cats st) as [st1 [cats1|e]] eqn:Hrest; [|discriminate].
    unfold ret. intros [= _ <-]. constructor; [|eapply IH; reflexivity].
    split; [reflexivity|]. intros k Hj Hm. simpl. rewrite !dict_get_set.
    destruct (String.eqb_spec k "md_path"); [contradiction|].
    destruct (String.eqb_spec k "json_path"); [contradiction|]. reflexivity.
Qed.

(** X20: [load_config] changes nothing but the two derived paths: the
    configuration it returns has the parsed [max_results] and the parsed
    categories in their order, each with every other setting (its query and
    output directory among them) as parsed. *)
Theorem load_config_keeps_other_settings (w : World) (config_file : string)
    (parsed config : Config) (st st' : state) :
  yaml_safe_load w config_file = inr parsed ->
  load_config w config_file st = (st', Return config) ->
  max_results config = max_results parsed /\
  Forall2 same_settings (categories parsed) (categories config).
Proof.
  intros Hparse. unfold load_config, bind, of_result. rewrite Hparse.
  unfold ret at 1.
  destruct (derive_paths (categories parsed) st) as [st1 [cats|e]] eqn:Hd;
    [|discriminate].
  intros [= _ <-]. simpl. split; [reflexivity|].
  eapply derive_paths_same_settings, Hd.
Qed.

Lemma load_config_keeps_other_settings_witness :
  yaml_safe_load example_world "config.yaml"
    = inr {| categories := example_categories; max_results := Some 1%Z |} /\
  load_config example_world "config.yaml" empty_state
    = (fst (logging_info (LoadedConfiguration example_config) empty_state),
       Return example_config) /\
  max_results example_config = Some 1%Z /\
  Forall2 same_settings example_categories (categories example_config).
Proof.
  split; [reflexivity|]. split; [reflexivity|].
  exact (load_config_keeps_other_settings example_world "config.yaml"
           {| categories := example_categories; max_results := Some 1%Z |}
           example_config empty_state _ eq_refl eq_refl).
Defined.

(** *** The derived paths as paths *)

Lemma str_contains_slash p :
  existsb (Ascii.eqb "/") (list_ascii_of_string p) = str_contains "/" p.
Proof.
  induction p as [|c p IH]; [reflexivity|].
  cbn [list_ascii_of_string existsb str_contains].
  rewrite IH, (Ascii.eqb_sym "/" c). reflexivity.
Qed.

Lemma os_path_basename_plain f :
  str_contains "/" f = false -> os_path_basename f = f.
Proof.
  destruct f as [|c f]; [reflexivity|]. simpl. rewrite str_contains_slash.
  destruct (Ascii.eqb c "/"); simpl; [discriminate|].
  intros ->. reflexivity.
Qed.

Lemma os_path_basename_after_slash p f :
  str_contains "/" f = false -> os_path_basename (p +:+ String "/" f) = f.
Proof.
  intros Hf. induction p as [|c p IH].
  - simpl. rewrite str_contains_slash, Hf. reflexivity.
  - change (String c p +:+ String "/" f) with (String c (p +:+ String "/" f)).
    cbn [os_path_basename]. rewrite str_contains_slash, str_contains_append.
    simpl. rewrite orb_true_r. exact IH.
Qed.

Lemma str_endswith_split c s :
  str_endswith c s = true -> exists p, s = p +:+ String c "".
Proof.
  induction s as [|c' s IH]; [discriminate|]. simpl.
  destruct s as [|c'' s].
  - intros Hc. apply Ascii.eqb_eq in Hc as ->. exists "". reflexivity.
  - intros H. destruct (IH H) as [p Hp]. exists (String c' p).
    rewrite Hp. reflexivity.
Qed.

(** The file name survives the join with any directory. *)
Lemma os_path_basename_join output_dir f :
  str_contains "/" f = false ->
  os_path_basename (os_path_join output_dir f) = f.
Proof.
  intros Hf. unfold os_path_join.
  assert (Hstart : str_startswith "/" f = false).
  { destruct f as [|c f]; [reflexivity|]. simpl in *.
    destruct (Ascii.eqb c "/"); [discriminate|reflexivity]. }
  rewrite Hstart.
  destruct (String.eqb_spec output_dir "") as [->|Hne]; simpl.
  - apply os_path_basename_plain, Hf.
  - destruct (str_endswith "/" output_dir) eqn:Hend.
    + destruct (str_endswith_split _ _ Hend) as [p ->].
      rewrite string_app_assoc. apply os_path_basename_after_slash, Hf.
    + apply os_path_basename_after_slash, Hf.
Qed.

(** X21: in a loaded configuration the store and the document of a category
    are two different paths, named [papers.json] and [README.md]: writing
    the document can never replace the store. *)
Theorem store_and_document_are_distinct_files (w : World) (config_file : string)
    (st st' : state) (config : Config) (name : string) (cat : dict string) :
  load_config w config_file st = (st', Return config) ->
  (name, cat) ∈ categories config ->
  exists json_path md_path,
    dict_get "json_path" cat = Some json_path /\
    dict_get "md_path" cat = Some md_path /\
    os_path_basename json_path = "papers.json" /\
    os_path_basename md_path = "README.md" /\
    json_path <> md_path.
Proof.
  unfold load_config, bind, of_result.
  destruct (yaml_safe_load w config_file) as [e|parsed]; [discriminate|].
  unfold ret at 1.
  destruct (derive_paths (categories parsed) st) as [st1 [cats|e]] eqn:Hd;
    [|discriminate].
  intros [= _ <-] Hin. simpl in Hin.
  destruct (derive_paths_members _ _ _ _ Hd) as [_ Hall].
  destruct (Hall name cat Hin) as (d & _ & Hjson & Hmd).
  exists (os_path_join d "papers.json"), (os_path_join d "README.md").
  split; [exact Hjson|]. split; [exact Hmd|].
  assert (Hj : os_path_basename (os_path_join d "papers.json") = "papers.json")
    by (apply os_path_basename_join; reflexivity).
  assert (Hm : os_path_basename (os_path_join d "README.md") = "README.md")
    by (apply os_path_basename_join; reflexivity).
  split; [exact Hj|]. split; [exact Hm|].
  intros Heq. rewrite Heq, Hm in Hj. discriminate Hj.
Qed.

Lemma store_and_document_are_distinct_files_witness :
  load_config example_world "config.yaml" empty_state
    = (fst (logging_info (LoadedConfiguration example_config) empty_state),
       Return example_config) /\
  ("cs.CL", example_category) ∈ categories example_config /\
  exists json_path md_path,
    dict_get "json_path" example_category = Some json_path /\
    dict_get "md_path" example_category = Some md_path /\
    os_path_basename json_path = "papers.json" /\
    os_path_basename md_path = "README.md" /\
    json_path <> md_path.
Proof.
  assert (Hin : ("cs.CL", example_category) ∈ categories example_config)
    by apply list_elem_of_here.
  split; [reflexivity|]. split; [exact Hin|].
  exact (store_and_document_are_distinct_files example_world "config.yaml"
           empty_state _ example_config "cs.CL" example_category eq_refl Hin).
Defined.

(** ** The printed form of dates *)

Lemma string_compare_refl s : String.compare s s = Eq.
Proof.
  pose proof (String.compare_antisym s s) as H.
  destruct (String.compare s s); [reflexivity|discriminate H|discriminate H].
Qed.

(** Comparison of two strings that start with parts of the same length. *)
Lemma string_compare_app a b x y :
  String.length a = String.length b ->
  String.compare (a +:+ x) (b +:+ y) =
  match String.compare a b with
  | Eq => String.compare x y
  | c => c
  end.
Proof.
  revert b. induction a as [|ca a IH]; intros [|cb b] Hlen;
    try discriminate Hlen; [reflexivity|].
  change (String.compare (String ca (a +:+ x)) (String cb (b +:+ y)) =
          match String.compare (String ca a) (String cb b) with
          | Eq => String.compare x y
          | c => c
          end).
  cbn [String.compare]. destruct (Ascii.compare ca cb); [|reflexivity..].
  apply IH. injection Hlen as Hlen. exact Hlen.
Qed.

Section Padding.
Variable width bound : nat.
Hypothesis checked : forallb (pads_in_order width) (seq 0 bound) = true.
Hypothesis bound_pos : 0 < bound.

Lemma pads_in_order_below n : n < bound -> pads_in_order width n = true.
Proof.
  intros Hn. rewrite forallb_forall in checked. apply checked.
  apply in_seq. lia.
Qed.

Lemma zero_pad_length n : n <= bound -> String.length (zero_pad width n) = width.
Proof.
  intros Hn. destruct n as [|n].
  - pose proof (pads_in_order_below 0 bound_pos) as H.
    unfold pads_in_order in H. apply andb_true_iff in H as [H _].
    apply andb_true_iff in H as [_ H]. apply Nat.eqb_eq, H.
  - assert (Hlt : n < bound) by lia.
    pose proof (pads_in_order_below n Hlt) as H.
    unfold pads_in_order in H. apply andb_true_iff in H as [_ H].
    apply Nat.eqb_eq, H.
Qed.

Lemma zero_pad_lt n m :
  n < m -> m <= bound ->
  String.ltb (zero_pad width n) (zero_pad width m) = true.
Proof.
  intros Hnm. induction Hnm as [|m Hnm IH]; intros Hm.
  - assert (Hlt : n < bound) by lia.
    pose proof (pads_in_order_below n Hlt) as H.
    unfold pads_in_order in H. apply andb_true_iff in H as [H _].
    apply andb_true_iff in H as [H _]. unfold String.ltb.
    destruct (String.compare (zero_pad width n) (zero_pad width (S n)));
      [discriminate H|reflexivity|discriminate H].
  - assert (Hlt : m < bound) by lia.
    eapply string_ltb_trans; [apply IH; lia|].
    pose proof (pads_in_order_below m Hlt) as H.
    unfold pads_in_order in H. apply andb_true_iff in H as [H _].
    apply andb_true_iff in H as [H _]. unfold String.ltb.
    destruct (String.compare (zero_pad width m) (zero_pad width (S m)));
      [discriminate H|reflexivity|discriminate H].
Qed.

(** On the numbers checked, padded numerals compare as the numbers do. *)
Lemma zero_pad_compare n m :
  n <= bound -> m <= bound ->
  String.compare (zero_pad width n) (zero_pad width m) = Nat.compare n m.
Proof.
  intros Hn Hm. destruct (Nat.compare_spec n m) as [->|Hlt|Hgt].
  - apply string_compare_refl.
  - pose proof (zero_pad_lt n m Hlt Hm) as H. unfold String.ltb in H.
    destruct (String.compare (zero_pad width n) (zero_pad width m));
      [discriminate H|reflexivity|discriminate H].
  - pose proof (zero_pad_lt m n Hgt Hn) as H. unfold String.ltb in H.
    rewrite String.compare_antisym.
    destruct (String.compare (zero_pad width m) (zero_pad width n));
      [discriminate H|reflexivity|discriminate H].
Qed.

End Padding.

Lemma four_digits_checked : forallb (pads_in_order 4) (seq 0 (99 * 101)) = true.
Proof. vm_compute. reflexivity. Qed.

Lemma two_digits_checked : forallb (pads_in_order 2) (seq 0 31) = true.
Proof. vm_compute. reflexivity. Qed.

Lemma date_valid_bounds d :
  date_valid d = true ->
  year d <= 99 * 101 /\ month d <= 31 /\ day d <= 31.
Proof.
  unfold date_valid. rewrite !andb_true_iff, !Nat.leb_le. lia.
Qed.

(** X22: for dates of the calendar the printed form orders as time does:
    comparing the [updated] strings of two dates gives the chronological
    comparison of the dates, so the descending string sort of the renderer
    is the reverse chronological order. *)
Theorem printed_dates_order_chronologically (d1 d2 : date) :
  date_valid d1 = true ->
  date_valid d2 = true ->
  String.compare (date_isoformat d1) (date_isoformat d2) = date_compare d1 d2.
Proof.
  intros H1 H2.
  apply date_valid_bounds in H1 as (Hy1 & Hm1 & Hd1).
  apply date_valid_bounds in H2 as (Hy2 & Hm2 & Hd2).
  assert (Hpos4 : 0 < 99 * 101) by lia. assert (Hpos2 : 0 < 31) by lia.
  unfold date_isoformat, date_compare.
  rewrite string_compare_app
    by (rewrite !(zero_pad_length 4 _ four_digits_checked Hpos4) by assumption;
        reflexivity).
  rewrite (zero_pad_compare 4 _ four_digits_checked Hpos4) by assumption.
  destruct (Nat.compare (year d1) (year d2)); [|reflexivity..].
  change (String.compare
            (String "-" (zero_pad 2 (month d1) +:+ "-" +:+ zero_pad 2 (day d1)))
            (String "-" (zero_pad 2 (month d2) +:+ "-" +:+ zero_pad 2 (day d2)))
          = match Nat.compare (month d1) (month d2) with
            | Eq => Nat.compare (day d1) (day d2)
            | c => c
            end).
  cbn [String.compare]. change (Ascii.compare "-" "-") with Eq. cbv iota.
  rewrite string_compare_app
    by (rewrite !(zero_pad_length 2 _ two_digits_checked Hpos2) by assumption;
        reflexivity).
  rewrite (zero_pad_compare 2 _ two_digits_checked Hpos2) by assumption.
  destruct (Nat.compare (month d1) (month d2)); [|reflexivity..].
  change (String.compare (String "-" (zero_pad 2 (day d1)))
                         (String "-" (zero_pad 2 (day d2)))
          = Nat.compare (day d1) (day d2)).
  cbn [String.compare]. change (Ascii.compare "-" "-") with Eq. cbv iota.
  apply (zero_pad_compare 2 _ two_digits_checked Hpos2); assumption.
Qed.

Lemma printed_dates_order_chronologically_witness :
  date_valid {| year := 2023; month := 12; day := 20 |} = true /\
  date_valid {| year := 2024; month := 1; day := 2 |} = true /\
  String.compare (date_isoformat {| year := 2023; month := 12; day := 20 |})
                 (date_isoformat {| year := 2024; month := 1; day := 2 |})
    = date_compare {| year := 2023; month := 12; day := 20 |}
                   {| year := 2024; month := 1; day := 2 |}.
Proof.
  split; [reflexivity|]. split; [reflexivity|].
  exact (printed_dates_order_chronologically
           {| year := 2023; month := 12; day := 20 |}
           {| year := 2024; month := 1; day := 2 |} eq_refl eq_refl).
Defined.

(** ** More on the canonical identifier *)

(** X23: for an identifier whose base holds no letter [v] (every new-style
    identifier), with or without a version suffix, the canonical identifier
    is the base and the record's PDF link is the abstract page of the
    base. *)
Theorem version_suffix_is_stripped (w : World) (result : Result)
    (base n : string) (st : state) :
  str_contains "v" base = false ->
  get_short_id result = base \/ get_short_id result = base +:+ "v" +:+ n ->
  clean_id (get_short_id result) = base /\
  exists st' record,
    paper_entry w result st = (st', Return (get_short_id result, record)) /\
    pdf record = "http://arxiv.org/abs/" +:+ base.
Proof.
  intros Hbase Hid.
  assert (Hclean : clean_id (get_short_id result) = base).
  { destruct Hid as [-> | ->];
      [apply clean_id_without_v|apply clean_id_versioned]; exact Hbase. }
  split; [exact Hclean|].
  destruct (paper_entry_returns w result st) as (st' & record & Hentry & Hpdf).
  exists st', record. split; [exact Hentry|]. rewrite Hpdf, Hclean. reflexivity.
Qed.

Lemma version_suffix_is_stripped_witness :
  str_contains "v" "2401.00001" = false /\
  (get_short_id example_result = "2401.00001" \/
   get_short_id example_result = "2401.00001" +:+ "v" +:+ "1") /\
  clean_id (get_short_id example_result) = "2401.00001" /\
  exists st' record,
    paper_entry example_world example_result empty_state
      = (st', Return (get_short_id example_result, record)) /\
    pdf record = "http://arxiv.org/abs/" +:+ "2401.00001".
Proof.
  split; [reflexivity|]. split; [right; reflexivity|].
  exact (version_suffix_is_stripped example_world example_result "2401.00001" "1"
           empty_state eq_refl (or_intror eq_refl)).
Defined.

(** X24: the canonical identifier is the part of the identifier before its
    first letter [v]: it holds no [v], the identifier continues after it
    with a [v] or not at all, and taking it again changes nothing. *)
Theorem clean_id_is_the_part_before_v (paper_id : string) :
  exists rest,
    paper_id = clean_id paper_id +:+ rest /\
    str_contains "v" (clean_id paper_id) = false /\
    (rest = "" \/ str_startswith "v" rest = true) /\
    clean_id (clean_id paper_id) = clean_id paper_id.
Proof.
  induction paper_id as [|c s (rest & Hs & Hfree & Hrest & Hidem)].
  - exists "". repeat split; auto.
  - rewrite clean_id_String. destruct (Ascii.eqb c "v") eqn:Hc.
    + exists (String c s). split; [reflexivity|]. split; [reflexivity|].
      split; [right; exact Hc|reflexivity].
    + exists rest. split; [|split; [|split]].
      * change (String c s = String c (clean_id s +:+ rest)). f_equal. exact Hs.
      * simpl. rewrite Hc. exact Hfree.
      * exact Hrest.
      * rewrite clean_id_String, Hc, Hidem. reflexivity.
Qed.

(** ** More on the order of the rows *)

Section SortedUnique.
Context {A : Type} (key : A -> string).

(** A list holds one arrangement in descending order when its keys are
    pairwise distinct. *)
Lemma descending_sorted_unique (l1 l2 : list A) :
  StronglySorted (descending key) l1 ->
  StronglySorted (descending key) l2 ->
  Permutation l1 l2 ->
  NoDup (map key l1) ->
  l1 = l2.
Proof.
  revert l2. induction l1 as [|x l1 IH]; intros l2 Hs1 Hs2 Hperm Hnd.
  - apply Permutation_nil in Hperm. symmetry. exact Hperm.
  - destruct l2 as [|y l2].
    { apply Permutation_sym, Permutation_nil in Hperm. discriminate Hperm. }
    apply StronglySorted_inv in Hs1 as [Hs1 Hx].
    apply StronglySorted_inv in Hs2 as [Hs2 Hy].
    simpl in Hnd. apply NoDup_cons in Hnd as [Hkx Hnd].
    assert (Hxy : x = y).
    { assert (Hyin : In y (x :: l1)).
      { eapply Permutation_in; [apply Permutation_sym, Hperm|left; reflexivity]. }
      destruct Hyin as [Heq|Hyin]; [exact Heq|]. exfalso.
      assert (Hxin : In x (y :: l2)).
      { eapply Permutation_in; [exact Hperm|left; reflexivity]. }
      destruct Hxin as [Heq|Hxin].
      - apply Hkx. rewrite <- Heq. apply list_elem_of_In, in_map, Hyin.
      - rewrite List.Forall_forall in Hx, Hy.
        pose proof (Hx y Hyin) as Hle1. pose proof (Hy x Hxin) as Hle2.
        unfold descending in Hle1, Hle2.
        pose proof (String.leb_antisym _ _ Hle1 Hle2) as Hkey.
        apply Hkx. rewrite <- Hkey. apply list_elem_of_In, in_map, Hyin. }
    subst y. f_equal. apply IH; try assumption.
    eapply Permutation_cons_inv, Hperm.
Qed.

Lemma sorted_reverse_of_Permutation (l1 l2 : list A) :
  Permutation l1 l2 ->
  NoDup (map key l1) ->
  sorted_reverse key l1 = sorted_reverse key l2.
Proof.
  intros Hperm Hnd. apply descending_sorted_unique.
  - apply sorted_reverse_sorted.
  - apply sorted_reverse_sorted.
  - rewrite !sorted_reverse_Permutation. exact Hperm.
  - pose proof (Permutation_map key (sorted_reverse_Permutation key l1)) as Hk.
    rewrite Hk. exact Hnd.
Qed.

End SortedUnique.

(** X25: when the [updated] strings of the records are pairwise distinct,
    the document does not depend on the order in which the store holds the
    records, nor on their keys: two stores with the same records give the
    same lines. *)
Theorem document_ignores_store_order (w : World) (data1 data2 : dict Paper)
    (category_name : string) :
  Permutation (dict_values data1) (dict_values data2) ->
  NoDup (map updated (dict_values data1)) ->
  markdown_content w data1 category_name = markdown_content w data2 category_name.
Proof.
  intros Hperm Hnd. unfold markdown_content. cbv zeta.
  rewrite (sorted_reverse_of_Permutation updated _ _ Hperm Hnd). reflexivity.
Qed.

Lemma document_ignores_store_order_witness :
  Permutation (dict_values example_store)
    (dict_values [("2401.00001v1", stored_record); ("2312.09999v2", other_record)]) /\
  NoDup (map updated (dict_values example_store)) /\
  markdown_content example_world example_store "cs.CL"
    = markdown_content example_world
        [("2401.00001v1", stored_record); ("2312.09999v2", other_record)] "cs.CL".
Proof.
  assert (Hperm : Permutation (dict_values example_store)
            (dict_values [("2401.00001v1", stored_record);
                          ("2312.09999v2", other_record)]))
    by apply perm_swap.
  assert (Hnd : NoDup (map updated (dict_values example_store))).
  { apply (bool_decide_eq_true_1 (NoDup _)). vm_compute. reflexivity. }
  split; [exact Hperm|]. split; [exact Hnd|].
  exact (document_ignores_store_order example_world example_store _ "cs.CL"
           Hperm Hnd).
Defined.
